(** * quiz-buddy-agent: plan parsing, state reconciliation, plan execution

    A shallow embedding of [state_utils.py] and of the executor and evaluator
    nodes of [quiz_agentic_design.py], with the properties of the
    specification stated and proved over it.

    Layout: the Python data the program manipulates ([Py]), the text
    primitives it uses ([Text]), a JSON decoder for the examples ([Json]),
    the functions of [state_utils.py] ([StateUtils]), the nodes of
    [quiz_agentic_design.py] ([QuizAgent]), a store-level rendition of the
    reconciler in which objects live at addresses ([Store], [StoreUtils]),
    the vocabulary of the statements ([Terms]) and sample data ([Samples]);
    then the lemmas and the theorems, component by component. *)

From Stdlib Require Import ZArith Floats Ascii String.
From stdpp Require Import base option list gmap strings fin_maps.

#[local] Set Warnings "-register-all".
#[local] Open Scope string_scope.
#[local] Open Scope Z_scope.
#[local] Open Scope list_scope.

(* ===================================================================== *)
(** * Python values, exceptions and results *)
(* ===================================================================== *)

Module Py.

(** JSON-like Python objects, plus tuples (the parsed plan keeps each
    tool argument as a 2-tuple).  A [dict] is keyed by [str]: this is what
    [json.loads] produces and what [Dict[str, Any]] promises.  Python
    compares dicts regardless of insertion order, and nothing modelled
    here iterates over the values of a dict, so a dict is a finite map. *)
Inductive value : Type :=
| VNone
| VBool (b : bool)
| VInt (z : Z)
| VFloat (f : float)
| VStr (s : string)
| VList (xs : list value)
| VTuple (xs : list value)
| VDict (m : gmap string value).

(** The exception classes that can reach the modelled code. *)
Inductive exn : Type :=
| TypeError
| KeyError (k : value)
| IndexError
| ValueError (msg : string)
| JSONDecodeError
| AttributeError
| RecursionError
| ExternalError (what : string).

(** [except ValueError] also catches [json.JSONDecodeError], its subclass. *)
Definition is_ValueError (e : exn) : bool :=
  match e with
  | ValueError _ | JSONDecodeError => true
  | _ => false
  end.

(** Outcome of a Python call: a returned object or a raised exception. *)
Inductive res (A : Type) : Type :=
| Ok (a : A)
| Raise (e : exn).
Arguments Ok {A} a.
Arguments Raise {A} e.

Definition bind {A B} (c : res A) (k : A → res B) : res B :=
  match c with
  | Ok a => k a
  | Raise e => Raise e
  end.

Definition raises {A} (c : res A) : Prop :=
  match c with Ok _ => False | Raise _ => True end.

(** ** [isinstance] and truth value *)

Definition isinstance_dict (v : value) : bool :=
  match v with VDict _ => true | _ => false end.

Definition isinstance_list (v : value) : bool :=
  match v with VList _ => true | _ => false end.

Definition isinstance_str (v : value) : bool :=
  match v with VStr _ => true | _ => false end.

(** [bool(v)], as used by [if v:] and [not v]. *)
Definition truthy (v : value) : bool :=
  match v with
  | VNone => false
  | VBool b => b
  | VInt z => negb (z =? 0)
  | VFloat f => negb (PrimFloat.eqb f 0%float)
  | VStr s => negb (bool_decide (s = EmptyString))
  | VList xs | VTuple xs => negb (bool_decide (xs = []))
  | VDict m => negb (bool_decide (m = ∅))
  end.

(** ** Equality ([==]) *)

(** An [int] equals a [float] when the float is finite and denotes exactly
    that integer. *)
Definition float_eq_int (f : float) (z : Z) : bool :=
  match Prim2SF f with
  | S754_zero _ => z =? 0
  | S754_finite s m e =>
      let v := if s then Z.neg m else Z.pos m in
      if 0 <=? e then z =? v * 2 ^ e
      else (v mod 2 ^ (- e) =? 0) && (z =? v / 2 ^ (- e))
  | _ => false
  end.

Definition int_of_bool (b : bool) : Z := if b then 1 else 0.

(** [a == b].  [bool] is a subclass of [int]; numbers compare by value
    across [int] and [float]; sequences compare element-wise and only
    within their own class; dicts compare key set and values.  (CPython
    first tries object identity on container elements; that shortcut only
    differs from this for a NaN shared by both sides and is left out.) *)
Fixpoint py_eq (a b : value) : bool :=
  let seq_eq :=
    fix go (xs ys : list value) : bool :=
      match xs, ys with
      | [], [] => true
      | x :: xs', y :: ys' => py_eq x y && go xs' ys'
      | _, _ => false
      end in
  match a, b with
  | VNone, VNone => true
  | VBool x, VBool y => bool_decide (x = y)
  | VBool x, VInt y => int_of_bool x =? y
  | VInt x, VBool y => x =? int_of_bool y
  | VInt x, VInt y => x =? y
  | VBool x, VFloat y => float_eq_int y (int_of_bool x)
  | VFloat x, VBool y => float_eq_int x (int_of_bool y)
  | VInt x, VFloat y => float_eq_int y x
  | VFloat x, VInt y => float_eq_int x y
  | VFloat x, VFloat y => PrimFloat.eqb x y
  | VStr s, VStr t => bool_decide (s = t)
  | VList xs, VList ys => seq_eq xs ys
  | VTuple xs, VTuple ys => seq_eq xs ys
  | VDict m, VDict n =>
      bool_decide (dom m = dom n) &&
      map_fold (λ k x acc,
                  acc && match n !! k with
                         | Some y => py_eq x y
                         | None => false
                         end) true m
  | _, _ => false
  end.

(** ** Dictionaries *)

(** [d.get(k, dflt)] *)
Definition dict_get (d : gmap string value) (k : string) (dflt : value) : value :=
  default dflt (d !! k).

(** [d[k]] on a dict *)
Definition dict_item (d : gmap string value) (k : string) : res value :=
  match d !! k with
  | Some v => Ok v
  | None => Raise (KeyError (VStr k))
  end.

(** [{**a, **b}] for two dicts: the keys of [b] win. *)
Definition dict_merge (a b : gmap string value) : gmap string value := b ∪ a.

(** [{**a, **b}] where [a] and [b] are arbitrary objects: unpacking a
    non-mapping with [**] raises [TypeError]. *)
Definition dict_display (a b : value) : res value :=
  match a, b with
  | VDict x, VDict y => Ok (VDict (dict_merge x y))
  | _, _ => Raise TypeError
  end.

(** [d.update(pairs)] with a list of key/value pairs, in order. *)
Definition dict_update (d : gmap string value) (pairs : list (string * value))
  : gmap string value :=
  foldl (λ acc kv, <[kv.1 := kv.2]> acc) d pairs.

(** ** Subscripts and iteration on arbitrary objects *)

(** [v[k]] with a [str] key. *)
Definition getitem_str (v : value) (k : string) : res value :=
  match v with
  | VDict d => dict_item d k
  | _ => Raise TypeError
  end.

(** [iter(v)]: the elements of a list or tuple, the characters of a
    string, the keys of a dict (whose order is immaterial wherever this is
    used: every key is a [str] and is consumed the same way). *)
Definition iter (v : value) : res (list value) :=
  match v with
  | VList xs | VTuple xs => Ok xs
  | VStr s => Ok ((λ c, VStr (String c EmptyString)) <$> list_ascii_of_string s)
  | VDict d => Ok ((λ kv, VStr kv.1) <$> map_to_list d)
  | _ => Raise TypeError
  end.

(** [v[i]] with an index [i] that is not negative. *)
Definition getitem_int (v : value) (i : nat) : res value :=
  match v with
  | VList xs | VTuple xs =>
      match xs !! i with Some x => Ok x | None => Raise IndexError end
  | VStr s =>
      match list_ascii_of_string s !! i with
      | Some c => Ok (VStr (String c EmptyString))
      | None => Raise IndexError
      end
  | VDict _ => Raise (KeyError (VInt (Z.of_nat i)))
  | _ => Raise TypeError
  end.

(** [len(v)] *)
Definition len (v : value) : res nat :=
  match v with
  | VList xs | VTuple xs => Ok (length xs)
  | VStr s => Ok (String.length s)
  | VDict d => Ok (size d)
  | _ => Raise TypeError
  end.

(** [v[-1]] *)
Definition last_item (v : value) : res value :=
  match v with
  | VList xs | VTuple xs =>
      match last xs with Some x => Ok x | None => Raise IndexError end
  | VStr s =>
      match last (list_ascii_of_string s) with
      | Some c => Ok (VStr (String c EmptyString))
      | None => Raise IndexError
      end
  | VDict _ => Raise (KeyError (VInt (-1)))
  | _ => Raise TypeError
  end.

(** [v + 1] *)
Definition add_one (v : value) : res value :=
  match v with
  | VBool b => Ok (VInt (int_of_bool b + 1))
  | VInt z => Ok (VInt (z + 1))
  | VFloat f => Ok (VFloat (f + 1)%float)
  | _ => Raise TypeError
  end.

(** [copy.deepcopy(v)].  On values, which carry no identity, a deep copy
    is the value itself; what the copies are for is the subject of
    [Store] below, where objects have addresses. *)
Definition deepcopy (v : value) : value := v.

End Py.

Export Py.

#[global] Instance res_ret : MRet res := @Ok.
#[global] Instance res_bind : MBind res := λ A B k c, Py.bind c k.

(* ===================================================================== *)
(** * Text primitives ([str] methods) *)
(* ===================================================================== *)

(** A [str] is modelled by [string], a sequence of characters with codes
    0..255. *)
Module Text.

(** [c.isspace()] for a character below 256: TAB..CR, FS..US, SPACE, NEL
    and NBSP. *)
Definition isspace (c : ascii) : bool :=
  let n := nat_of_ascii c in
  ((9 <=? n) && (n <=? 13) || (28 <=? n) && (n <=? 32)
   || (n =? 133) || (n =? 160))%nat.

Fixpoint lstrip (s : string) : string :=
  match s with
  | String c s' => if isspace c then lstrip s' else s
  | EmptyString => EmptyString
  end.

Definition rstrip (s : string) : string := String.rev (lstrip (String.rev s)).

(** [s.strip()] *)
Definition strip (s : string) : string := lstrip (rstrip s).

(** [s.startswith(p)], returning what follows the prefix. *)
Fixpoint strip_prefix (p s : string) : option string :=
  match p, s with
  | EmptyString, _ => Some s
  | String a p', String b s' => if bool_decide (a = b) then strip_prefix p' s' else None
  | String _ _, EmptyString => None
  end.

Definition startswith (s p : string) : bool := bool_decide (is_Some (strip_prefix p s)).

(** [sub in s] for a non-empty [sub]. *)
Fixpoint contains (sub s : string) : bool :=
  match strip_prefix sub s with
  | Some _ => true
  | None => match s with
            | String _ s' => contains sub s'
            | EmptyString => false
            end
  end.

(** The first occurrence of [sep] cuts [s] in two. *)
Fixpoint cut (sep s : string) : option (string * string) :=
  match strip_prefix sep s with
  | Some rest => Some (EmptyString, rest)
  | None => match s with
            | String c s' =>
                match cut sep s' with
                | Some (a, b) => Some (String c a, b)
                | None => None
                end
            | EmptyString => None
            end
  end.

(** [s.split(sep, 1)]: one or two pieces. *)
Definition split1 (sep s : string) : list string :=
  match cut sep s with
  | Some (a, b) => [a; b]
  | None => [s]
  end.

(** [s.split(sep)] for a non-empty [sep]: scan left to right, cut at each
    occurrence, resume after it.  [skip] counts the characters of the
    separator still to pass over; [cur] is the piece being read, reversed. *)
Fixpoint split_go (sep s : string) (skip : nat) (cur : string) : list string :=
  match s with
  | EmptyString => [String.rev cur]
  | String c s' =>
      match skip with
      | S k => split_go sep s' k cur
      | O => match strip_prefix sep s with
             | Some _ =>
                 String.rev cur :: split_go sep s' (String.length sep - 1) EmptyString
             | None => split_go sep s' 0 (String c cur)
             end
      end
  end.

Definition split (sep s : string) : list string := split_go sep s 0 EmptyString.

(** [s.find(c)] for a one-character needle: its first index, or -1. *)
Fixpoint find_from (c : ascii) (s : string) (i : Z) : Z :=
  match s with
  | EmptyString => -1
  | String a s' => if bool_decide (a = c) then i else find_from c s' (i + 1)
  end.

Definition find (s : string) (c : ascii) : Z := find_from c s 0.

(** [s[lo:hi]] and [s[lo:]] for indices that are not negative. *)
Definition drop (lo : Z) (s : string) : string :=
  String.substring (Z.to_nat lo) (String.length s - Z.to_nat lo) s.

Definition slice (lo hi : Z) (s : string) : string :=
  String.substring (Z.to_nat lo) (Z.to_nat hi - Z.to_nat lo) s.

End Text.

(* ===================================================================== *)
(** * A JSON decoder for the examples *)
(* ===================================================================== *)

(** [state_utils.py] calls [json.loads] of the Python library; the model
    takes the decoder as a parameter and every general statement holds for
    any decoder.  To run the parsers on concrete texts, [loads] below decodes
    the part of JSON whose numbers are integers and whose strings have no
    backslash escape, as [json.loads] does; a text outside that part is
    answered with [ExternalError], so that no example can rest on it. *)
Module Json.

Inductive scan : Type :=
| Scanned (v : value) (rest : string)
| Malformed
| Unsupported.

Definition is_ws (c : ascii) : bool :=
  bool_decide (c = " "%char) || bool_decide (c = "009"%char)
  || bool_decide (c = "010"%char) || bool_decide (c = "013"%char).

Fixpoint skip_ws (s : string) : string :=
  match s with
  | String c s' => if is_ws c then skip_ws s' else s
  | EmptyString => s
  end.

Definition digit (c : ascii) : option Z :=
  let n := nat_of_ascii c in
  if ((48 <=? n) && (n <=? 57))%nat then Some (Z.of_nat n - 48) else None.

Fixpoint digits (s : string) (acc : Z) : Z * string :=
  match s with
  | String c s' =>
      match digit c with
      | Some d => digits s' (10 * acc + d)
      | None => (acc, s)
      end
  | EmptyString => (acc, s)
  end.

(** After the digits of an integer: a fraction or an exponent would make
    the literal a float. *)
Definition integer_end (sign : Z) (n : Z) (rest : string) : scan :=
  match rest with
  | String c _ =>
      if bool_decide (c = "."%char) || bool_decide (c = "e"%char)
         || bool_decide (c = "E"%char)
      then Unsupported else Scanned (VInt (sign * n)) rest
  | EmptyString => Scanned (VInt (sign * n)) rest
  end.

Definition unsigned (sign : Z) (s : string) : scan :=
  match s with
  | String c s' =>
      match digit c with
      | Some 0 => integer_end sign 0 s'
      | Some _ => let '(n, rest) := digits s 0 in integer_end sign n rest
      | None => Malformed
      end
  | EmptyString => Malformed
  end.

(** The characters of a string literal up to the closing quote. *)
Fixpoint chars (s : string) (acc : string) : option (option (string * string)) :=
  match s with
  | String c s' =>
      if bool_decide (c = "034"%char) then Some (Some (String.rev acc, s'))
      else if bool_decide (c = "092"%char) then None
      else if (nat_of_ascii c <? 32)%nat then Some None
      else chars s' (String c acc)
  | EmptyString => Some None
  end.

Definition atom (s : string) : scan :=
  match Text.strip_prefix "null" s with Some r => Scanned VNone r | None =>
  match Text.strip_prefix "true" s with Some r => Scanned (VBool true) r | None =>
  match Text.strip_prefix "false" s with Some r => Scanned (VBool false) r | None =>
  match Text.strip_prefix "NaN" s with Some r => Scanned (VFloat nan) r | None =>
  match Text.strip_prefix "Infinity" s with Some r => Scanned (VFloat infinity) r | None =>
  match Text.strip_prefix "-Infinity" s with Some r => Scanned (VFloat neg_infinity) r | None =>
  match s with
  | String "-" s' => unsigned (-1) s'
  | _ => unsigned 1 s
  end end end end end end end.

(** [value], [elements] (after an opening bracket or a comma) and
    [members] (after an opening brace or a comma); [fuel] bounds the
    number of nested calls. *)
Fixpoint value_ (fuel : nat) (s : string) : scan :=
  match fuel with
  | O => Unsupported
  | S fuel =>
      match s with
      | String "[" r =>
          match skip_ws r with
          | String "]" r' => Scanned (VList []) r'
          | r' => elements fuel r' []
          end
      | String "{" r =>
          match skip_ws r with
          | String "}" r' => Scanned (VDict ∅) r'
          | r' => members fuel r' ∅
          end
      | String "034" r =>
          match chars r EmptyString with
          | Some (Some (str, r')) => Scanned (VStr str) r'
          | Some None => Malformed
          | None => Unsupported
          end
      | _ => atom s
      end
  end
with elements (fuel : nat) (s : string) (acc : list value) : scan :=
  match fuel with
  | O => Unsupported
  | S fuel =>
      match value_ fuel s with
      | Scanned v r =>
          match skip_ws r with
          | String "]" r' => Scanned (VList (acc ++ [v])) r'
          | String "," r' => elements fuel (skip_ws r') (acc ++ [v])
          | _ => Malformed
          end
      | other => other
      end
  end
with members (fuel : nat) (s : string) (acc : gmap string value) : scan :=
  match fuel with
  | O => Unsupported
  | S fuel =>
      match s with
      | String "034" r =>
          match chars r EmptyString with
          | Some (Some (key, r1)) =>
              match skip_ws r1 with
              | String ":" r2 =>
                  match value_ fuel (skip_ws r2) with
                  | Scanned v r3 =>
                      match skip_ws r3 with
                      | String "}" r' => Scanned (VDict (<[key := v]> acc)) r'
                      | String "," r' => members fuel (skip_ws r') (<[key := v]> acc)
                      | _ => Malformed
                      end
                  | other => other
                  end
              | _ => Malformed
              end
          | Some None => Malformed
          | None => Unsupported
          end
      | _ => Malformed
      end
  end.

Definition loads (s : string) : res value :=
  match value_ (S (String.length s)) (skip_ws s) with
  | Scanned v rest =>
      if bool_decide (skip_ws rest = EmptyString) then Ok v else Raise JSONDecodeError
  | Malformed => Raise JSONDecodeError
  | Unsupported => Raise (ExternalError "outside the modelled part of JSON")
  end.

End Json.

(* ===================================================================== *)
(** * [state_utils.py] *)
(* ===================================================================== *)

Module StateUtils.

(** ** [bulk_set_state] *)

(** The flashcard merge of [bulk_set_state]: does [card], an entry of the
    list being updated, carry the same ["id"] as [new_card]?
    ([isinstance(card, dict) and card.get("id") == new_card.get("id")]) *)
Definition same_id (new_card : gmap string value) (card : value) : bool :=
  match card with
  | VDict c => py_eq (dict_get c "id" VNone) (dict_get new_card "id" VNone)
  | _ => false
  end.

(** The inner [for i, card in enumerate(updated_flashcards)] loop with its
    [found] flag: the first entry with the same id is merged in place,
    otherwise the new card is appended. *)
Definition upsert_card (updated_flashcards : list value)
    (new_card : gmap string value) : list value :=
  match list_find (λ card, same_id new_card card = true) updated_flashcards with
  | Some (i, VDict card) =>
      <[i := VDict (dict_merge card (new_card))]> updated_flashcards
  | _ => updated_flashcards ++ [VDict new_card]
  end.

(** [for new_card in value]: entries that are not dicts are skipped. *)
Definition upsert_cards (current_flashcards : list value) (value : list Py.value)
  : list Py.value :=
  foldl (λ updated_flashcards new_card,
           match new_card with
           | VDict c => upsert_card updated_flashcards c
           | _ => updated_flashcards
           end) current_flashcards value.

(** One turn of the [for field_name, value in updates] loop:
    [merged_updates] is the list built so far. *)
Definition bulk_set_state_step (state : gmap string value)
    (merged_updates : list (string * value))
    (field_name : string) (value : Py.value)
  : res (list (string * Py.value)) :=
  if Text.contains "." field_name then
    match Text.split1 "." field_name with
    | [parent; child] =>
        let parent_value := deepcopy (dict_get state parent (VDict ∅)) in
        match parent_value with
        | VDict pv =>
            match value with
            | VDict _ =>
                match pv !! child with
                | Some existing =>
                    merged ← dict_display existing value;
                    Ok (merged_updates ++ [(parent, VDict (<[child := merged]> pv))])
                | None =>
                    Ok (merged_updates
                          ++ [(parent, VDict (<[child := deepcopy value]> pv))])
                end
            | _ => Ok (merged_updates ++ [(parent, VDict (<[child := value]> pv))])
            end
        | _ => Ok merged_updates
        end
    | _ => Raise (ValueError "not enough values to unpack (expected 2, got 1)")
    end
  else
    match value with
    | VDict v =>
        let merged_value :=
          match state !! field_name with
          | Some (VDict cur) => VDict (dict_merge (cur) (v))
          | _ => deepcopy value
          end in
        Ok (merged_updates ++ [(field_name, merged_value)])
    | _ =>
        if bool_decide (field_name = "flashcard_states") then
          match value with
          | VList new_cards =>
              let current_flashcards :=
                match dict_get state field_name (VList []) with
                | VList l => l
                | _ => []
                end in
              let updated_flashcards := upsert_cards current_flashcards new_cards in
              Ok (merged_updates ++ [(field_name, VList updated_flashcards)])
          | _ => Ok merged_updates
          end
        else Ok (merged_updates ++ [(field_name, deepcopy value)])
    end.

(** The loop itself. *)
Fixpoint bulk_set_state_loop (state : gmap string value)
    (updates : list (string * value)) (merged_updates : list (string * value))
  : res (list (string * Py.value)) :=
  match updates with
  | [] => Ok merged_updates
  | (field_name, value) :: rest =>
      merged_updates' ← bulk_set_state_step state merged_updates field_name value;
      bulk_set_state_loop state rest merged_updates'
  end.

Definition bulk_set_state (state : gmap string value)
    (updates : list (string * value)) : res (list (string * value)) :=
  bulk_set_state_loop state updates [].

(** ** [parse_tool_input] and [parse_llm_plan_response] *)

(** A parsed step: [(description, step_id, tool_name, updates)]. *)
Definition plan_tuple : Type := string * string * string * list (string * value).

Section parsers.

(** [json.loads], the decoder of the Python library: a decoded object,
    [JSONDecodeError] on text that is not JSON, or another exception
    (nesting too deep, an integer literal too long, ...). *)
Variable json_loads : string → res value.

(** The [try] body of one turn of [for item in items]. *)
Definition parse_tool_input_try (updates : list (string * value)) (item : string)
  : res (list (string * Py.value)) :=
  match Text.split1 "=" (Text.strip item) with
  | [key; value] =>
      let key := Text.strip key in
      let value := Text.strip value in
      match json_loads value with
      | Ok parsed_value =>
          if bool_decide (key = "flashcard_states") then
            match parsed_value with
            | VList cards =>
                let parsed_value :=
                  VList (filter (λ card, isinstance_dict card = true) cards) in
                Ok (updates ++ [(key, parsed_value)])
            | _ => Ok updates
            end
          else Ok (updates ++ [(key, parsed_value)])
      | Raise JSONDecodeError =>
          if bool_decide (key = "flashcard_states") then Ok updates
          else Ok (updates ++ [(key, VStr value)])
      | Raise e => Raise e
      end
  | _ => Raise (ValueError "not enough values to unpack (expected 2, got 1)")
  end.

(** One turn with its [except ValueError: continue]. *)
Definition parse_tool_input_item (updates : list (string * value)) (item : string)
  : res (list (string * value)) :=
  match parse_tool_input_try updates item with
  | Ok updates' => Ok updates'
  | Raise e => if is_ValueError e then Ok updates else Raise e
  end.

Fixpoint parse_tool_input_loop (items : list string) (updates : list (string * value))
  : res (list (string * value)) :=
  match items with
  | [] => Ok updates
  | item :: rest =>
      updates' ← parse_tool_input_item updates item;
      parse_tool_input_loop rest updates'
  end.

(** [[item.strip() for item in input_str.split(';') if item.strip()]] *)
Definition tool_input_items (input_str : string) : list string :=
  Text.strip <$> filter (λ item, Text.strip item ≠ EmptyString) (Text.split ";" input_str).

Definition parse_tool_input (input_str : string) : res (list (string * value)) :=
  let input_str := Text.strip input_str in
  parse_tool_input_loop (tool_input_items input_str) [].

(** The bracket scan
    [for i, char in enumerate(tool_part[start_idx:], start=start_idx)],
    returning [(end_idx, bracket_count)]. *)
Fixpoint scan_brackets (chars : string) (i : Z) (bracket_count : Z) : Z * Z :=
  match chars with
  | EmptyString => (-1, bracket_count)
  | String char rest =>
      if bool_decide (char = "["%char) then scan_brackets rest (i + 1) (bracket_count + 1)
      else if bool_decide (char = "]"%char) then
        let bracket_count := bracket_count - 1 in
        if bracket_count =? 0 then (i, bracket_count)
        else scan_brackets rest (i + 1) bracket_count
      else scan_brackets rest (i + 1) bracket_count
  end.

(** The [try] body of one turn of [for step_text in parts[1:]]. *)
Definition parse_step_try (plans : list plan_tuple)
    (plan_description step_text : string) : res (list plan_tuple) :=
  match Text.split1 "=" step_text with
  | [step_number; remainder] =>
      let step_id := "E" +:+ Text.strip step_number in
      let tool_part := Text.strip remainder in
      let tool_name_end := Text.find tool_part "["%char in
      if tool_name_end =? -1 then Ok plans
      else
        let tool_name := Text.strip (Text.slice 0 tool_name_end tool_part) in
        let start_idx := tool_name_end in
        let '(end_idx, bracket_count) :=
          scan_brackets (Text.drop start_idx tool_part) start_idx 0 in
        if (end_idx =? -1) || negb (bracket_count =? 0) then Ok plans
        else
          let tool_input :=
            Text.strip (Text.slice (start_idx + 1) end_idx tool_part) in
          updates ← parse_tool_input tool_input;
          Ok (plans ++ [(plan_description, step_id, tool_name, updates)])
  | _ => Ok plans
  end.

(** One turn with its [except Exception: continue]. *)
Definition parse_step (plans : list plan_tuple)
    (plan_description step_text : string) : list plan_tuple :=
  match parse_step_try plans plan_description step_text with
  | Ok plans' => plans'
  | Raise _ => plans
  end.

(** The [try] body of one turn of [for section in plan_sections]. *)
Definition parse_section_try (plans : list plan_tuple) (section : string)
  : res (list plan_tuple) :=
  match Text.split "
#E" section with
  | part0 :: steps =>
      let plan_description := Text.strip part0 in
      let plan_description :=
        if Text.startswith plan_description "Plan: "
        then Text.strip (Text.drop 6 plan_description)
        else plan_description in
      Ok (foldl (λ plans step_text, parse_step plans plan_description step_text)
            plans steps)
  | [] => Raise IndexError
  end.

(** One turn: blank sections are passed over, and [except Exception]
    drops a failing section. *)
Definition parse_section (plans : list plan_tuple) (section : string)
  : list plan_tuple :=
  if bool_decide (Text.strip section = EmptyString) then plans
  else match parse_section_try plans section with
       | Ok plans' => plans'
       | Raise _ => plans
       end.

Definition parse_llm_plan_response (response_content : string) : list plan_tuple :=
  let plan_sections := Text.split "
Plan: " response_content in
  foldl parse_section [] plan_sections.

End parsers.

(** ** [populate_flashcards] *)

(** A row of the [flashcards] table as [get_flashcards_by_topic_id]
    returns it: the four selected columns. *)
Record flashcard_row : Type := {
  row_id : value;
  row_topic_id : value;
  row_question : value;
  row_marking_criteria : value;
}.

Section populate.

(** The repository: [tutor_db.get_flashcards_by_topic_id]. *)
Variable get_flashcards_by_topic_id : value → list flashcard_row.

(** The state entry appended for one flashcard. *)
Definition new_flashcard_state (flashcard : flashcard_row) : gmap string value :=
  {[ "id" := row_id flashcard;
     "status" := VStr "queued";
     "question" := row_question flashcard;
     "marking_criteria" := row_marking_criteria flashcard;
     "attempts" := VInt 0;
     "user_answers" := VList [];
     "evaluation" := VNone ]}.

Definition populate_flashcards (topic_id : value) : list (gmap string value) :=
  let flashcards := get_flashcards_by_topic_id topic_id in
  let new_flashcard_states := new_flashcard_state <$> flashcards in
  match new_flashcard_states with
  | first :: _ => <[0%nat := <["status" := VStr "active"]> first]> new_flashcard_states
  | [] => new_flashcard_states
  end.

End populate.

End StateUtils.

(* ===================================================================== *)
(** * [quiz_agentic_design.py]: the evaluator and executor nodes *)
(* ===================================================================== *)

Module QuizAgent.
Import StateUtils.

(** ** [evaluate] *)

(** [base_models.EvaluationResult] *)
Inductive verdict : Type := correct | incorrect | partial.

Definition verdict_str (r : verdict) : string :=
  match r with
  | correct => "correct"
  | incorrect => "incorrect"
  | partial => "partial"
  end.

Record EvaluationResult : Type := {
  result : verdict;
  score : float;
  feedback : string;
}.

(** What [evaluate] hands to the evaluator chain. *)
Record evaluator_input : Type := {
  question : value;
  marking_criteria : value;
  student_answer : value;
}.

(** [next((i for i, card in enumerate(cards) if card["status"] == "active"), None)]:
    the generator is consumed up to the first hit, so the entries after it
    are never subscripted. *)
Fixpoint find_active (cards : list value) (i : nat) : res (option nat) :=
  match cards with
  | [] => Ok None
  | card :: rest =>
      status ← getitem_str card "status";
      if py_eq status (VStr "active") then Ok (Some i) else find_active rest (S i)
  end.

(** [d[k] = d.get(k, 0) + 1] on the score dict. *)
Definition bump (score : gmap string value) (k : string) : res (gmap string value) :=
  n ← add_one (dict_get score k (VInt 0));
  Ok (<[k := n]> score).

Section evaluate.

(** [create_evaluator_chain().invoke]: the external evaluator, which
    answers with an [EvaluationResult] or raises. *)
Variable evaluation_chain_invoke : evaluator_input → res EvaluationResult.

(** Everything after the evaluator has answered. *)
Definition record_evaluation (current_state : gmap string value)
    (flashcard_states : value) (active_index : nat)
    (active_flashcard : gmap string value) (evaluation_result : EvaluationResult)
  : res (gmap string value) :=
  let updated_flashcard :=
    <["evaluation" :=
        VDict {[ "result" := VStr (verdict_str (result evaluation_result));
                 "score" := VFloat (score evaluation_result);
                 "feedback" := VStr (feedback evaluation_result) ]}]>
      active_flashcard in
  flashcard_states ←
    match flashcard_states with
    | VList cards => Ok (VList (<[active_index := VDict updated_flashcard]> cards))
    | _ => Raise TypeError
    end;
  let current_state := <["flashcard_states" := flashcard_states]> current_state in
  let current_state :=
    match current_state !! "score" with
    | Some _ => current_state
    | None =>
        <["score" := VDict {[ "correct" := VInt 0; "incorrect" := VInt 0;
                              "total_attempts" := VInt 0 ]}]> current_state
    end in
  score ←
    match dict_get current_state "score" VNone with
    | VDict score => Ok score
    | VList _ | VTuple _ | VStr _ | VNone | VBool _ | VInt _ | VFloat _ =>
        Raise AttributeError
    end;
  score ← bump score "total_attempts";
  score ←
    match result evaluation_result with
    | correct => bump score "correct"
    | incorrect => bump score "incorrect"
    | partial => Ok score
    end;
  Ok (<["score" := VDict score]> current_state).

(** [evaluate(state)]: the outcome, and the inputs on which the
    evaluator chain was invoked during the call, in order. *)
Definition evaluate (state : gmap string value)
  : res (gmap string value) * list evaluator_input :=
  let current_state := state in
  match
    flashcard_states ← dict_item current_state "flashcard_states";
    cards ← iter flashcard_states;
    active_index ← find_active cards 0;
    match active_index with
    | None => Raise (ValueError "No active flashcard found in state")
    | Some active_index =>
        active_flashcard ← getitem_int flashcard_states active_index;
        user_answers ← getitem_str active_flashcard "user_answers";
        if negb (truthy user_answers)
        then Raise (ValueError "No user answer found for active flashcard")
        else
          student_answer ← last_item user_answers;
          question ← getitem_str active_flashcard "question";
          marking_criteria ← getitem_str active_flashcard "marking_criteria";
          Ok (flashcard_states, active_index, active_flashcard,
              {| question := question; marking_criteria := marking_criteria;
                 student_answer := student_answer |})
    end
  with
  | Raise e => (Raise e, [])
  | Ok (flashcard_states, active_index, active_flashcard, evaluator_input) =>
      (evaluation_result ← evaluation_chain_invoke evaluator_input;
       match active_flashcard with
       | VDict card =>
           record_evaluation current_state flashcard_states active_index card
             evaluation_result
       | _ => Raise TypeError
       end,
       [evaluator_input])
  end.

End evaluate.

(** ** [execute_plan] *)

(** The tool arguments of a step, read at the type the planner node
    stores them: a list of pairs [(key, value)] with a [str] key.  Anything
    else is outside [List[Tuple[str, Any]]]; the model answers [TypeError]
    there and no statement below depends on it. *)
Fixpoint as_updates (tool_input : list value) : res (list (string * value)) :=
  match tool_input with
  | [] => Ok []
  | (VTuple [VStr k; v] | VList [VStr k; v]) :: rest =>
      updates ← as_updates rest;
      Ok ((k, v) :: updates)
  | _ => Raise TypeError
  end.

Section execute_plan.

Variable get_flashcards_by_topic_id : value → list flashcard_row.

(** One turn of [for step in current_plan["steps"]]. *)
Definition execute_step (current_state : gmap string value) (step : value)
  : res (gmap string value) :=
  tool_name ← getitem_str step "tool";
  tool_input ← getitem_str step "tool_input";
  current_state ←
    (if py_eq tool_name (VStr "bulk_set_state") then
       updates ← (items ← iter tool_input; as_updates items);
       updated_values ← bulk_set_state current_state updates;
       Ok (if bool_decide (updated_values = []) then current_state
           else dict_update current_state updated_values)
     else Ok current_state);
  if py_eq tool_name (VStr "populate_flashcards") then
    first ← getitem_int tool_input 0;
    topic_id ← getitem_int first 1;
    let flashcard_states := populate_flashcards get_flashcards_by_topic_id topic_id in
    Ok (if bool_decide (flashcard_states = []) then current_state
        else <["flashcard_states" := VList (VDict <$> flashcard_states)]> current_state)
  else Ok current_state.

Fixpoint execute_steps (steps : list value) (current_state : gmap string value)
  : res (gmap string value) :=
  match steps with
  | [] => Ok current_state
  | step :: rest =>
      current_state ← execute_step current_state step;
      execute_steps rest current_state
  end.

Definition execute_plan (state : gmap string value) : res (gmap string value) :=
  let current_plan :=
    dict_get state "current_plan"
      (VDict {[ "steps" := VList []; "string" := VStr EmptyString ]}) in
  _ ← getitem_str current_plan "string";
  steps ← getitem_str current_plan "steps";
  _ ← len steps;
  let current_state := state in
  steps ← match steps with
          | VDict d => if bool_decide (d = ∅) then Ok [] else Raise AttributeError
          | _ => iter steps
          end;
  execute_steps steps current_state.

End execute_plan.

(** The planner node ([generate_plan]) stores the parsed steps in the
    state in this shape. *)
Definition step_value (p : plan_tuple) : value :=
  let '(plan_desc, step_id, tool_name, tool_input) := p in
  VDict {[ "description" := VStr plan_desc;
           "step_id" := VStr step_id;
           "tool" := VStr tool_name;
           "tool_input" := VList ((λ kv, VTuple [VStr kv.1; kv.2]) <$> tool_input) ]}.

Definition plan_value (result : list plan_tuple) : value :=
  let plan_description :=
    match result with
    | (d, _, _, _) :: _ => d
    | [] => EmptyString
    end in
  VDict {[ "steps" := VList (step_value <$> result);
           "string" := VStr plan_description ]}.

(** ** [generate_plan] *)

(** [convert_message(msg)].  A LangChain message object is represented by
    the dict [{"role": msg.type, "content": msg.content}] that this
    function turns it into, and which it leaves unchanged; a dict in the old
    format, with a ["message"] key, is rewritten; anything else is returned
    as it is. *)
Definition convert_message (msg : value) : res value :=
  match msg with
  | VDict d =>
      match d !! "message" with
      | Some message =>
          role ← dict_item d "role";
          Ok (VDict {[ "role" := role; "content" := message ]})
      | None => Ok msg
      end
  | _ => Ok msg
  end.

(** [[convert_message(msg) for msg in msgs]] *)
Fixpoint convert_messages (msgs : list value) : res (list value) :=
  match msgs with
  | [] => Ok []
  | msg :: rest =>
      converted ← convert_message msg;
      others ← convert_messages rest;
      Ok (converted :: others)
  end.

(** The default of [state.get("current_plan", ...)]. *)
Definition empty_plan : value :=
  VDict {[ "steps" := VList []; "string" := VStr EmptyString ]}.

(** What the planner chain is invoked on. *)
Definition planner_input (state : gmap string value) (messages : list value)
  : gmap string value :=
  {[ "current_topic_id" := dict_get state "current_topic_id" VNone;
     "topics" := dict_get state "topics" (VList []);
     "flashcard_states" := dict_get state "flashcard_states" (VList []);
     "score" := dict_get state "score"
                  (VDict {[ "correct" := VInt 0; "incorrect" := VInt 0;
                            "total_attempts" := VInt 0 ]});
     "quiz_state" := dict_get state "quiz_state" (VDict ∅);
     "user" := dict_get state "user" (VDict ∅);
     "messages" := VList messages;
     "hard_flashcards" := dict_get state "hard_flashcards" (VList []) ]}.

Section generate_plan.

Variable json_loads : string → res value.

(** [create_planner_chain().invoke(...).content]: the text the planner
    answers with, or the exception it raises. *)
Variable planner_chain_invoke : gmap string value → res string.

Definition generate_plan (state : gmap string value) : res (gmap string value) :=
  messages ← (msgs ← iter (dict_get state "messages" (VList []));
              convert_messages msgs);
  response_content ← planner_chain_invoke (planner_input state messages);
  let result := parse_llm_plan_response json_loads response_content in
  let new_state := state in
  let new_state :=
    <["previous_plan" := dict_get state "current_plan" empty_plan]> new_state in
  let new_state := <["current_plan" := plan_value result]> new_state in
  Ok new_state.

End generate_plan.

(** ** [route_to_evaluation_or_response] *)

Definition route_to_evaluation_or_response (state : gmap string value) : string :=
  let quiz_state := dict_get state "quiz_state" VNone in
  match quiz_state with
  | VDict d =>
      if py_eq (dict_get d "state" VNone) (VStr "awaiting_evaluation")
      then "evaluator" else "responder"
  | VStr _ =>
      if py_eq quiz_state (VStr "awaiting_evaluation")
      then "evaluator" else "responder"
  | _ => "responder"
  end.

End QuizAgent.

(* ===================================================================== *)
(** * The reconciler over a store of objects *)
(* ===================================================================== *)

(** In [StateUtils] a Python object is its value.  That is enough to say
    what [bulk_set_state] returns, not to say that it leaves its argument
    alone: for that, lists and dicts must be objects that can be shared and
    written to.  Here they live in a store, at addresses; [bulk_set_state]
    is transcribed statement by statement with every read, allocation and
    write explicit. *)
Module Store.

Abbreviation loc := nat (only parsing).

(** What a variable or a container slot holds: an immutable scalar, or the
    address of a container. *)
Inductive ref : Type :=
| RNone
| RBool (b : bool)
| RInt (z : Z)
| RFloat (f : float)
| RStr (s : string)
| RLoc (l : loc).

Inductive cell : Type :=
| CList (xs : list ref)
| CTuple (xs : list ref)
| CDict (m : gmap string ref).

(** The store: the object at address [l] is the [l]-th cell; a new object
    takes the next address. *)
Abbreviation heap := (list cell) (only parsing).

(** A computation reads and writes the store and returns or raises; the
    store is still there after a raise. *)
Definition H (A : Type) : Type := heap → res A * heap.

Definition ret {A} (a : A) : H A := λ h, (Ok a, h).

Definition raise {A} (e : exn) : H A := λ h, (Raise e, h).

Definition bind {A B} (c : H A) (k : A → H B) : H B :=
  λ h, match c h with
       | (Ok a, h') => k a h'
       | (Raise e, h') => (Raise e, h')
       end.

Definition alloc (c : cell) : H loc := λ h, (Ok (length h), h ++ [c]).

Definition read (l : loc) : H cell :=
  λ h, match h !! l with
       | Some c => (Ok c, h)
       | None => (Raise (ExternalError "no object at this address"), h)
       end.

Definition write (l : loc) (c : cell) : H unit := λ h, (Ok tt, <[l := c]> h).

Definition get_heap : H heap := λ h, (Ok h, h).

End Store.

#[global] Instance H_ret : MRet Store.H := @Store.ret.
#[global] Instance H_bind : MBind Store.H := λ A B k c, Store.bind c k.

Module StoreUtils.
Import Store.

(** [isinstance(r, dict)], with the address and the contents when it holds. *)
Definition dict_at (r : ref) : H (option (loc * gmap string ref)) :=
  match r with
  | RLoc l =>
      c ← read l;
      match c with
      | CDict m => mret (Some (l, m))
      | _ => mret None
      end
  | _ => mret None
  end.

(** [isinstance(r, list)] *)
Definition list_at (r : ref) : H (option (loc * list ref)) :=
  match r with
  | RLoc l =>
      c ← read l;
      match c with
      | CList xs => mret (Some (l, xs))
      | _ => mret None
      end
  | _ => mret None
  end.

(** The elements of a container copied one after the other, the memo
    passed along. *)
Fixpoint copy_all (copy : ref → gmap loc loc → H (ref * gmap loc loc))
    (xs : list ref) (memo : gmap loc loc) : H (list ref * gmap loc loc) :=
  match xs with
  | [] => mret ([], memo)
  | x :: xs' =>
      ym ← copy x memo;
      ysm ← copy_all copy xs' ym.2;
      mret (ym.1 :: ysm.1, ysm.2)
  end.

(** [copy.deepcopy(x, memo)].  A scalar is returned as it is.  A container
    already copied is answered from [memo]; otherwise a new container is
    allocated, entered in [memo] (lists and dicts: before their elements
    are copied, so that cycles close) and filled with the copies of the
    elements.  [fuel] stands for the interpreter's recursion limit. *)
Fixpoint deepcopy_memo (fuel : nat) (x : ref) (memo : gmap loc loc)
  : H (ref * gmap loc loc) :=
  match x with
  | RLoc l =>
      match memo !! l with
      | Some l' => mret (RLoc l', memo)
      | None =>
          match fuel with
          | O => raise RecursionError
          | S fuel =>
              c ← read l;
              match c with
              | CList xs =>
                  l' ← alloc (CList []);
                  ysm ← copy_all (deepcopy_memo fuel) xs (<[l := l']> memo);
                  _ ← write l' (CList ysm.1);
                  mret (RLoc l', ysm.2)
              | CDict m =>
                  l' ← alloc (CDict ∅);
                  let items := map_to_list m in
                  ysm ← copy_all (deepcopy_memo fuel) (items.*2) (<[l := l']> memo);
                  _ ← write l' (CDict (list_to_map (zip (items.*1) ysm.1)));
                  mret (RLoc l', ysm.2)
              | CTuple xs =>
                  ysm ← copy_all (deepcopy_memo fuel) xs memo;
                  l' ← alloc (CTuple ysm.1);
                  mret (RLoc l', <[l := l']> ysm.2)
              end
          end
      end
  | _ => mret (x, memo)
  end.

Definition deepcopy (fuel : nat) (x : ref) : H ref :=
  ym ← deepcopy_memo fuel x ∅;
  mret ym.1.

(** The value of a scalar. *)
Definition scalar (r : ref) : value :=
  match r with
  | RNone => VNone
  | RBool b => VBool b
  | RInt z => VInt z
  | RFloat f => VFloat f
  | RStr s => VStr s
  | RLoc _ => VNone
  end.

Definition same_object (a b : ref) : bool :=
  match a, b with
  | RLoc la, RLoc lb => bool_decide (la = lb)
  | _, _ => false
  end.

(** [a == b] in store [h]: as [Py.py_eq], following addresses; containers
    compare their elements by identity first.  [fuel] is the recursion
    limit again. *)
Fixpoint ref_eq (fuel : nat) (h : heap) (a b : ref) : res bool :=
  let all_eq :=
    fix go (fuel : nat) (xs ys : list ref) : res bool :=
      match xs, ys with
      | x :: xs', y :: ys' =>
          e ← (if same_object x y then Ok true else ref_eq fuel h x y);
          if e : bool then go fuel xs' ys' else Ok false
      | _, _ => Ok true
      end in
  match a, b with
  | RLoc la, RLoc lb =>
      match fuel with
      | O => Raise RecursionError
      | S fuel =>
          match h !! la, h !! lb with
          | Some (CList xs), Some (CList ys)
          | Some (CTuple xs), Some (CTuple ys) =>
              if bool_decide (length xs = length ys) then all_eq fuel xs ys
              else Ok false
          | Some (CDict m), Some (CDict n) =>
              if bool_decide (dom m = dom n) then
                let items := map_to_list m in
                all_eq fuel (items.*2) ((λ kv, default RNone (n !! kv.1)) <$> items)
              else Ok false
          | _, _ => Ok false
          end
      end
  | RLoc _, _ | _, RLoc _ => Ok false
  | _, _ => Ok (py_eq (scalar a) (scalar b))
  end.

(** A [res] computation that does not touch the store. *)
Definition pure {A} (c : res A) : H A := λ h, (c, h).

(** ** [bulk_set_state] *)

(** [isinstance(card, dict) and card.get("id") == new_card.get("id")] *)
Definition same_id (fuel : nat) (new_card : gmap string ref) (card : ref) : H bool :=
  d ← dict_at card;
  match d with
  | Some (_, c) =>
      h ← get_heap;
      pure (ref_eq fuel h (default RNone (c !! "id")) (default RNone (new_card !! "id")))
  | None => mret false
  end.

(** [for i, card in enumerate(updated_flashcards)]: the index and contents
    of the first entry with the id of [new_card]. *)
Fixpoint find_card (fuel : nat) (new_card : gmap string ref)
    (cards : list ref) (i : nat) : H (option (nat * gmap string ref)) :=
  match cards with
  | [] => mret None
  | card :: rest =>
      hit ← same_id fuel new_card card;
      if hit : bool then
        d ← dict_at card;
        match d with
        | Some (_, c) => mret (Some (i, c))
        | None => mret None
        end
      else find_card fuel new_card rest (S i)
  end.

(** The body of [for new_card in value], on the list object at
    [updated_flashcards]. *)
Definition upsert_card (fuel : nat) (updated_flashcards : loc) (new_card : ref)
  : H unit :=
  d ← dict_at new_card;
  match d with
  | None => mret tt
  | Some (_, nc) =>
      cell ← read updated_flashcards;
      match cell with
      | CList cards =>
          found ← find_card fuel nc cards 0;
          match found with
          | Some (i, card) =>
              copy ← deepcopy fuel new_card;
              cd ← dict_at copy;
              match cd with
              | Some (_, cm) =>
                  merged ← alloc (CDict (cm ∪ card));
                  write updated_flashcards (CList (<[i := RLoc merged]> cards))
              | None => raise TypeError
              end
          | None =>
              copy ← deepcopy fuel new_card;
              write updated_flashcards (CList (cards ++ [copy]))
          end
      | _ => raise TypeError
      end
  end.

Fixpoint upsert_cards (fuel : nat) (updated_flashcards : loc) (value : list ref)
  : H unit :=
  match value with
  | [] => mret tt
  | new_card :: rest =>
      _ ← upsert_card fuel updated_flashcards new_card;
      upsert_cards fuel updated_flashcards rest
  end.

(** One turn of [for field_name, value in updates]; [state] is the
    address of the state dict. *)
Definition bulk_set_state_step (fuel : nat) (state : loc)
    (merged_updates : list (string * ref)) (field_name : string) (value : ref)
  : H (list (string * ref)) :=
  sd ← dict_at (RLoc state);
  match sd with
  | None => raise AttributeError
  | Some (_, st) =>
      if Text.contains "." field_name then
        match Text.split1 "." field_name with
        | [parent; child] =>
            dflt ← alloc (CDict ∅);
            parent_value ← deepcopy fuel (default (RLoc dflt) (st !! parent));
            pd ← dict_at parent_value;
            match pd with
            | Some (lp, pv) =>
                vd ← dict_at value;
                match vd with
                | Some (_, v) =>
                    match pv !! child with
                    | Some existing =>
                        ed ← dict_at existing;
                        match ed with
                        | Some (_, e) =>
                            merged ← alloc (CDict (v ∪ e));
                            _ ← write lp (CDict (<[child := RLoc merged]> pv));
                            mret (merged_updates ++ [(parent, parent_value)])
                        | None => raise TypeError
                        end
                    | None =>
                        copy ← deepcopy fuel value;
                        _ ← write lp (CDict (<[child := copy]> pv));
                        mret (merged_updates ++ [(parent, parent_value)])
                    end
                | None =>
                    _ ← write lp (CDict (<[child := value]> pv));
                    mret (merged_updates ++ [(parent, parent_value)])
                end
            | None => mret merged_updates
            end
        | _ => raise (ValueError "not enough values to unpack (expected 2, got 1)")
        end
      else
        vd ← dict_at value;
        match vd with
        | Some _ =>
            cur ← match st !! field_name with
                  | Some r => dict_at r
                  | None => mret None
                  end;
            match cur, st !! field_name with
            | Some _, Some r =>
                a ← deepcopy fuel r;
                b ← deepcopy fuel value;
                ad ← dict_at a;
                bd ← dict_at b;
                match ad, bd with
                | Some (_, am), Some (_, bm) =>
                    merged_value ← alloc (CDict (bm ∪ am));
                    mret (merged_updates ++ [(field_name, RLoc merged_value)])
                | _, _ => raise TypeError
                end
            | _, _ =>
                merged_value ← deepcopy fuel value;
                mret (merged_updates ++ [(field_name, merged_value)])
            end
        | None =>
            if bool_decide (field_name = "flashcard_states") then
              vl ← list_at value;
              match vl with
              | Some (_, new_cards) =>
                  dflt ← alloc (CList []);
                  cl ← list_at (default (RLoc dflt) (st !! field_name));
                  current_flashcards ←
                    match cl with
                    | Some _ => mret (default (RLoc dflt) (st !! field_name))
                    | None => l ← alloc (CList []); mret (RLoc l)
                    end;
                  copy ← deepcopy fuel current_flashcards;
                  cc ← list_at copy;
                  match cc with
                  | Some (_, cards) =>
                      updated_flashcards ← alloc (CList cards);
                      _ ← upsert_cards fuel updated_flashcards new_cards;
                      mret (merged_updates ++ [(field_name, RLoc updated_flashcards)])
                  | None => raise TypeError
                  end
              | None => mret merged_updates
              end
            else
              copy ← deepcopy fuel value;
              mret (merged_updates ++ [(field_name, copy)])
        end
  end.

Fixpoint bulk_set_state_loop (fuel : nat) (state : loc)
    (updates : list (string * ref)) (merged_updates : list (string * ref))
  : H (list (string * ref)) :=
  match updates with
  | [] => mret merged_updates
  | (field_name, value) :: rest =>
      merged_updates' ← bulk_set_state_step fuel state merged_updates field_name value;
      bulk_set_state_loop fuel state rest merged_updates'
  end.

Definition bulk_set_state (fuel : nat) (state : loc) (updates : list (string * ref))
  : H (list (string * ref)) :=
  bulk_set_state_loop fuel state updates [].

(** ** Between values and stored objects *)

(** Builds the objects of a value in the store. *)
Fixpoint store (v : value) : H ref :=
  let store_all :=
    fix go (xs : list value) : H (list ref) :=
      match xs with
      | [] => mret []
      | x :: xs' => r ← store x; rs ← go xs'; mret (r :: rs)
      end in
  match v with
  | VNone => mret RNone
  | VBool b => mret (RBool b)
  | VInt z => mret (RInt z)
  | VFloat f => mret (RFloat f)
  | VStr s => mret (RStr s)
  | VList xs => rs ← store_all xs; l ← alloc (CList rs); mret (RLoc l)
  | VTuple xs => rs ← store_all xs; l ← alloc (CTuple rs); mret (RLoc l)
  | VDict m =>
      rm ← map_fold (λ k x (acc : H (gmap string ref)),
                       rm ← acc; r ← store x; mret (<[k := r]> rm))
             (mret ∅) m;
      l ← alloc (CDict rm);
      mret (RLoc l)
  end.

(** Reads the value of a reference back, to depth [fuel]. *)
Fixpoint load (fuel : nat) (h : heap) (r : ref) : option value :=
  match r with
  | RLoc l =>
      match fuel with
      | O => None
      | S fuel =>
          match h !! l with
          | Some (CList xs) => VList <$> mapM (load fuel h) xs
          | Some (CTuple xs) => VTuple <$> mapM (load fuel h) xs
          | Some (CDict m) =>
              (λ kvs, VDict (list_to_map kvs))
                <$> mapM (λ kv, pair kv.1 <$> load fuel h kv.2) (map_to_list m)
          | None => None
          end
      end
  | _ => Some (scalar r)
  end.

Fixpoint store_updates (updates : list (string * value)) : H (list (string * ref)) :=
  match updates with
  | [] => mret []
  | (field_name, v) :: rest =>
      r ← store v;
      rs ← store_updates rest;
      mret ((field_name, r) :: rs)
  end.

(** The stored reconciler run from values: the state and the updates are
    built in an empty store, [bulk_set_state] runs on them, and the pairs
    it returns are read back.  Also returned: the store before the call
    and the same addresses after it. *)
Definition bulk_set_state_on_values (fuel : nat) (state : gmap string value)
    (updates : list (string * value))
  : option (res (list (string * value))) * (heap * heap) :=
  match (s ← store (VDict state); us ← store_updates updates; mret (s, us)) [] with
  | (Ok (RLoc s, us), h) =>
      let '(out, h') := bulk_set_state fuel s us h in
      (match out with
       | Ok pairs => Ok <$> mapM (λ kv, pair kv.1 <$> load fuel h' kv.2) pairs
       | Raise e => Some (Raise e)
       end, (h, take (length h) h'))
  | _ => (None, ([], []))
  end.

End StoreUtils.

(* ===================================================================== *)
(** * The vocabulary of the statements *)
(* ===================================================================== *)

(** What the properties below are stated with, and the sample data of the
    examples. *)
Module Terms.
Import StateUtils QuizAgent Store StoreUtils.

(** ** The reconciler *)

(** The one merge of [bulk_set_state] that is not guarded by a type test: a
    mapping offered for ["parent.child"] when the parent is a mapping whose
    [child] entry exists and is not a mapping. *)
Definition unguarded_merge (state : gmap string value) (update : string * value) : Prop :=
  ∃ parent child pv existing,
    Text.contains "." update.1 = true
    ∧ Text.split1 "." update.1 = [parent; child]
    ∧ state !! parent = Some (VDict pv)
    ∧ pv !! child = Some existing
    ∧ isinstance_dict update.2 = true
    ∧ isinstance_dict existing = false.

(** ** Stores *)

(** [keeps h0 c Q]: from any store that extends [h0], the computation [c]
    leads to a store that still extends [h0] (the objects of [h0] are all
    there, unchanged) whether it returns or raises, and what it returns
    satisfies [Q]. *)
Definition keeps {A} (h0 : heap) (c : H A) (Q : A → Prop) : Prop :=
  ∀ h, h0 `prefix_of` h →
       h0 `prefix_of` (c h).2 ∧ ∀ a, (c h).1 = Ok a → Q a.

(** A reference that does not point into [h0]. *)
Definition fresh (h0 : heap) (r : ref) : Prop :=
  match r with
  | RLoc l => (length h0 ≤ l)%nat
  | _ => True
  end.

(** A memo of [deepcopy] whose copies do not lie in [h0]. *)
Definition memo_fresh (h0 : heap) (memo : gmap loc loc) : Prop :=
  ∀ l l', memo !! l = Some l' → (length h0 ≤ l')%nat.

(** ** Parsed plans *)

(** A sequence of mapping records. *)
Definition records (v : value) : Prop :=
  ∃ cards, v = VList cards ∧ Forall (λ card, isinstance_dict card = true) cards.

(** The step fragments of a response, each with the description of its plan
    section, in source order: the sections are what lies between the
    section delimiters, blank sections dropped; in a section, what precedes
    the first step delimiter is the description and every piece after a
    step delimiter is a step fragment. *)
Definition section_fragments (section : string) : list (string * string) :=
  if bool_decide (Text.strip section = EmptyString) then []
  else
    match Text.split "
#E" section with
    | part0 :: steps =>
        let plan_description := Text.strip part0 in
        let plan_description :=
          if Text.startswith plan_description "Plan: "
          then Text.strip (Text.drop 6 plan_description)
          else plan_description in
        pair plan_description <$> steps
    | [] => []
    end.

Definition step_fragments (response_content : string) : list (string * string) :=
  Text.split "
Plan: " response_content ≫= section_fragments.

(** What one step fragment contributes on its own: a parsed step when it is
    well formed, nothing when it is not. *)
Definition step_outcome (json_loads : string → res value)
    (fragment : string * string) : option plan_tuple :=
  head (parse_step json_loads [] fragment.1 fragment.2).

(** Every pair under the reserved key holds a sequence of mapping records. *)
Definition reserved_ok (updates : list (string * value)) : Prop :=
  ∀ v, ("flashcard_states", v) ∈ updates → records v.

(** The two malformations of a step: no opening bracket after the tool
    name, and brackets whose depth does not come back to zero. *)
Definition no_bracket (step_text : string) : Prop :=
  ∃ step_number remainder,
    Text.split1 "=" step_text = [step_number; remainder]
    ∧ Text.find (Text.strip remainder) "["%char = -1.

Definition unbalanced (step_text : string) : Prop :=
  ∃ step_number remainder,
    Text.split1 "=" step_text = [step_number; remainder]
    ∧ let tool_part := Text.strip remainder in
      let start_idx := Text.find tool_part "["%char in
      (scan_brackets (Text.drop start_idx tool_part) start_idx 0).1 = -1.

(** ** Flashcard queues *)

(** The number of entries of a queue whose status is [active]
    ([card["status"] == "active"], as [evaluate] tests it). *)
Definition count_active (queue : list (gmap string value)) : nat :=
  length (filter (λ card, py_eq (dict_get card "status" VNone) (VStr "active") = true)
            queue).

(** ** Plans in the state *)

(** A state whose current plan is [plan], as the planner node leaves it. *)
Definition with_plan (state : gmap string value) (plan : list plan_tuple)
  : gmap string value :=
  <["current_plan" := plan_value plan]> state.

(** What a [populate_flashcards] step makes of the working state, given the
    queue the populator returned. *)
Definition fold_queue (current_state : gmap string value)
    (queue : list (gmap string value)) : gmap string value :=
  match queue with
  | [] => current_state
  | _ :: _ => <["flashcard_states" := VList (VDict <$> queue)]> current_state
  end.

(** ** The evaluator's view of the queue *)

(** An entry of the flashcard queue as the data model has it: a mapping
    with a status, a sequence of user answers, a question and marking
    criteria. *)
Definition flashcard_state (card : value) : Prop :=
  ∃ (d : gmap string value) (status q mc : value) (answers : list value),
    card = VDict d
    ∧ d !! "status" = Some status
    ∧ d !! "user_answers" = Some (VList answers)
    ∧ d !! "question" = Some q
    ∧ d !! "marking_criteria" = Some mc.

(** [card["status"] == "active"] *)
Definition is_active (card : value) : bool :=
  match card with
  | VDict d => py_eq (dict_get d "status" VNone) (VStr "active")
  | _ => false
  end.

(** The first active entry of a queue, with its index. *)
Definition first_active (cards : list value) : option (nat * value) :=
  list_find (λ card, is_active card = true) cards.

(** The user answers of an entry. *)
Definition answers_of (card : value) : list value :=
  match card with
  | VDict d => match d !! "user_answers" with
               | Some (VList answers) => answers
               | _ => []
               end
  | _ => []
  end.

Definition no_active_flashcard : exn :=
  ValueError "No active flashcard found in state".

Definition no_user_answer : exn :=
  ValueError "No user answer found for active flashcard".

(** ** The executor's view of a plan *)

(** The state field an update goes to: what precedes the first dot of its
    field name. *)
Definition top_level (field_name : string) : string :=
  match Text.split1 "." field_name with
  | parent :: _ => parent
  | [] => field_name
  end.

(** The mapping a state holds for a field; empty when the field is absent
    or holds something else. *)
Definition mapping_of (state : gmap string value) (field_name : string)
  : gmap string value :=
  match state !! field_name with
  | Some (VDict current) => current
  | _ => ∅
  end.

(** A step whose tool the executor does not know. *)
Definition unknown_tool (step : plan_tuple) : Prop :=
  step.1.2 ≠ "bulk_set_state" ∧ step.1.2 ≠ "populate_flashcards".

(** A plan step that calls the reconciler. *)
Definition bulk_step (updates : list (string * value)) : plan_tuple :=
  ("", "E1", "bulk_set_state", updates).

(** [l'] keeps the entries of [l]: each one is at its index, unchanged when
    it is not a dict, and a dict with at least the same keys otherwise. *)
Definition kept_in (l l' : list value) : Prop :=
  (length l ≤ length l')%nat
  ∧ ∀ i card, l !! i = Some card →
      ∃ card', l' !! i = Some card'
        ∧ (isinstance_dict card = false → card' = card)
        ∧ (∀ d, card = VDict d → ∃ d', card' = VDict d' ∧ dom d ⊆ dom d').


(** ** What the evaluator node records *)

(** The input [evaluate] builds from a card: its question, its marking
    criteria and the last of its answers. *)
Definition evaluator_input_of (card : value) : evaluator_input :=
  match card with
  | VDict d =>
      {| question := dict_get d "question" VNone;
         marking_criteria := dict_get d "marking_criteria" VNone;
         student_answer := default VNone (last (answers_of card)) |}
  | _ => {| question := VNone; marking_criteria := VNone; student_answer := VNone |}
  end.

(** The verdict as it is stored on the card. *)
Definition evaluation_of (evaluation_result : EvaluationResult) : value :=
  VDict {[ "result" := VStr (verdict_str (result evaluation_result));
           "score" := VFloat (score evaluation_result);
           "feedback" := VStr (feedback evaluation_result) ]}.

(** The score mapping [evaluate] counts in: the one of the state, or the
    zeros it starts from when the state has none. *)
Definition score_of (state : gmap string value) : option (gmap string value) :=
  match state !! "score" with
  | None => Some {[ "correct" := VInt 0; "incorrect" := VInt 0;
                    "total_attempts" := VInt 0 ]}
  | Some (VDict score) => Some score
  | Some _ => None
  end.

(** What a verdict adds to the counter [k]. *)
Definition counts_as (r : verdict) (k : string) : Z :=
  match r with
  | correct => if bool_decide (k = "correct") then 1 else 0
  | incorrect => if bool_decide (k = "incorrect") then 1 else 0
  | partial => 0
  end.

(** ** Well-formed steps *)

(** [nested s n]: read after [n] brackets were opened, [s] closes each of
    them and every bracket it opens itself, and closes no other. *)
Fixpoint nested (s : string) (n : nat) : bool :=
  match s with
  | EmptyString => bool_decide (n = 0%nat)
  | String char rest =>
      if bool_decide (char = "["%char) then nested rest (S n)
      else if bool_decide (char = "]"%char) then
        match n with
        | O => false
        | S n' => nested rest n'
        end
      else nested rest n
  end.

(** A text whose square brackets match. *)
Definition balanced (s : string) : Prop := nested s 0 = true.


End Terms.

(* ===================================================================== *)
(** * Sample data *)
(* ===================================================================== *)

Module Samples.
Import StateUtils QuizAgent Terms.

Definition state1 : gmap string value :=
  {[ "quiz_state" := VDict {[ "state" := VStr "idle"; "progress" := VInt 0 ]} ]}.

Definition state2 : gmap string value :=
  {[ "user" := VDict {[ "name" := VStr "Mo";
                        "preferences" := VDict {[ "difficulty_level" := VNone ]} ]} ]}.

Definition state3 : gmap string value :=
  {[ "quiz_state" := VDict {[ "state" := VStr "idle" ]};
     "flashcard_states" :=
       VList [VDict {[ "id" := VInt 1; "status" := VStr "active" ]};
              VDict {[ "id" := VInt 2; "status" := VStr "queued" ]}] ]}.

Definition updates3 : list (string * value) :=
  [("quiz_state", VDict {[ "progress" := VInt 1 ]});
   ("quiz_state.detail", VDict {[ "hint" := VStr "x" ]});
   ("flashcard_states", VList [VDict {[ "id" := VInt 2; "attempts" := VInt 1 ]};
                               VDict {[ "id" := VInt 7 ]}]);
   ("quiz_state", VDict {[ "hint" := VStr "x" ]});
   ("score", VInt 3)].

(** The state [{"quiz_state": {"state": "idle"}}] in the store: the inner
    dict at address 0, the state dict at address 1, and an incoming dict
    at address 2. *)
Definition heap3 : list Store.cell :=
  [Store.CDict {[ "state" := Store.RStr "idle" ]};
   Store.CDict {[ "quiz_state" := Store.RLoc 0 ]};
   Store.CDict {[ "progress" := Store.RInt 1 ]}].

Definition rows1 : list flashcard_row :=
  [ {| row_id := VInt 1; row_topic_id := VInt 2;
       row_question := VStr "What do you know about: Binary representation?";
       row_marking_criteria := VStr "Key points for full marks" |};
    {| row_id := VInt 2; row_topic_id := VInt 2;
       row_question := VStr "What do you know about: Encryption?";
       row_marking_criteria := VStr "Key points for full marks" |} ].

(** A repository with two flashcards under topic 2 and none elsewhere. *)
Definition repository1 (topic_id : value) : list flashcard_row :=
  if py_eq topic_id (VInt 2) then rows1 else [].

(** The double-quote character, as a text. *)
Definition quote : string := String "034"%char EmptyString.

(** The item [flashcard_states=[{"id": 1}, 5]]. *)
Definition mixed_item : string :=
  "flashcard_states=[{" +:+ quote +:+ "id" +:+ quote +:+ ": 1}, 5]".

(** A response of three steps, the second with a bracket that never closes. *)
Definition response1 : string :=
  "Plan: Start the quiz
#E1 = bulk_set_state[current_topic_id=2]
#E2 = bulk_set_state[hard_flashcards=[1, 2
#E3 = populate_flashcards[topic_id=2]".

(** A state with one flashcard in its queue. *)
Definition state4 : gmap string value :=
  {[ "flashcard_states" := VList [VDict {[ "id" := VInt 1; "status" := VStr "active" ]}];
     "current_topic_id" := VInt 2 ]}.

(** A queue with one flashcard, queued, and no active one. *)
Definition state5 : gmap string value :=
  {[ "flashcard_states" :=
       VList [VDict {[ "id" := VInt 1; "status" := VStr "queued";
                       "question" := VStr "What is decomposition?";
                       "marking_criteria" := VStr "Key points for full marks";
                       "attempts" := VInt 0; "user_answers" := VList [];
                       "evaluation" := VNone ]}] ]}.

(** An evaluator that marks every answer correct. *)
Definition lenient (_ : evaluator_input) : res EvaluationResult :=
  Ok {| result := correct; score := 1%float; feedback := "Well done" |}.

(** A planner that always answers with the same text. *)
Definition scripted (text : string) (_ : gmap string value) : res string := Ok text.


(** A queue whose first card is done and whose second is active and
    answered twice; no score yet. *)
Definition state6 : gmap string value :=
  {[ "current_topic_id" := VInt 2;
     "flashcard_states" :=
       VList [VDict {[ "id" := VInt 1; "status" := VStr "done";
                       "question" := VStr "What is abstraction?";
                       "marking_criteria" := VStr "Key points for full marks";
                       "user_answers" := VList [VStr "Hiding detail"] ]};
              VDict {[ "id" := VInt 2; "status" := VStr "active";
                       "question" := VStr "What is decomposition?";
                       "marking_criteria" := VStr "Key points for full marks";
                       "user_answers" := VList [VStr "No idea"; VStr "Splitting a problem"] ]}] ]}.

(** A decoder that knows the text [1] only. *)
Definition decode_one (text : string) : res value :=
  if bool_decide (text = "1") then Ok (VInt 1) else Raise JSONDecodeError.

End Samples.

(* ===================================================================== *)
(** * Facts about the primitives *)
(* ===================================================================== *)

Module PyFacts.

Lemma bind_Ok {A B} (a : A) (k : A → res B) : (Ok a ≫= k) = k a.
Proof. reflexivity. Qed.

Lemma bind_Raise {A B} (e : exn) (k : A → res B) : (Raise e ≫= k) = Raise e.
Proof. reflexivity. Qed.

Lemma bind_assoc {A B C} (c : res A) (k : A → res B) (k' : B → res C) :
  ((c ≫= k) ≫= k') = (c ≫= λ a, k a ≫= k').
Proof. by destruct c. Qed.

(** In [{**a, **b}] the keys of [b] win and the other keys of [a] stay. *)
Lemma dict_merge_lookup (a b : gmap string value) (k : string) :
  dict_merge a b !! k = match b !! k with Some x => Some x | None => a !! k end.
Proof.
  unfold dict_merge. destruct (b !! k) as [x|] eqn:Hb.
  - by apply lookup_union_Some_l.
  - by rewrite lookup_union_r.
Qed.

Lemma dict_merge_empty (b : gmap string value) : dict_merge ∅ b = b.
Proof. unfold dict_merge. apply (right_id_L ∅ (∪)). Qed.

End PyFacts.

Module TextFacts.
Import Text.

(** [sep in s] is what makes [s.split(sep, 1)] return two pieces. *)
Lemma contains_cut (sep s : string) :
  contains sep s = true → ∃ a b, cut sep s = Some (a, b).
Proof.
  induction s as [|c s IH]; simpl.
  - destruct (strip_prefix sep EmptyString); [eauto|done].
  - destruct (strip_prefix sep (String c s)); [eauto|].
    intros Hc. destruct (IH Hc) as (a & b & ->). eauto.
Qed.

Lemma contains_split1 (sep s : string) :
  contains sep s = true → ∃ a b, split1 sep s = [a; b].
Proof. intros (a & b & Hc)%contains_cut. unfold split1. rewrite Hc. eauto. Qed.

Section one_char.
Variable c : ascii.
Let sep : string := String c EmptyString.

Lemma strip_prefix_char (s : string) :
  strip_prefix sep s =
    match s with
    | String a s' => if bool_decide (c = a) then Some s' else None
    | EmptyString => None
    end.
Proof. destruct s as [|a s']; [done|]. unfold sep. simpl. case_bool_decide; [|done]. by destruct s'. Qed.

Lemma contains_app_char (p s : string) : contains sep (p +:+ String c s) = true.
Proof.
  unfold sep. induction p as [|a p IH]; simpl.
  - by rewrite bool_decide_true.
  - case_bool_decide; [done|]. apply IH.
Qed.

(** [(p + c + s).split(c, 1) == [p, s]] when [c] does not occur in [p]. *)
Lemma cut_app_char (p s : string) :
  contains sep p = false → cut sep (p +:+ String c s) = Some (p, s).
Proof.
  unfold sep. induction p as [|a p IH]; simpl.
  - intros _. by rewrite bool_decide_true.
  - case_bool_decide; [done|]. intros Hp. by rewrite (IH Hp).
Qed.

Lemma split1_app_char (p s : string) :
  contains sep p = false → split1 sep (p +:+ String c s) = [p; s].
Proof. intros Hp. unfold split1. by rewrite cut_app_char. Qed.

End one_char.

End TextFacts.

(* ===================================================================== *)
(** * The reconciler: [bulk_set_state] *)
(* ===================================================================== *)

Module Reconcile.
Import StateUtils PyFacts Terms Samples.

(** A turn only appends to the list built so far. *)
Lemma step_acc (state : gmap string value) (acc : list (string * value))
    (field_name : string) (v : value) :
  bulk_set_state_step state acc field_name v =
    (out ← bulk_set_state_step state [] field_name v; Ok (acc ++ out)).
Proof.
  unfold bulk_set_state_step.
  repeat case_match; simpl; rewrite ?app_nil_r; try done.
  all: by match goal with |- context [dict_display ?a ?b] => destruct (dict_display a b) end.
Qed.

Lemma loop_acc (state : gmap string value) (updates acc : list (string * value)) :
  bulk_set_state_loop state updates acc =
    (out ← bulk_set_state state updates; Ok (acc ++ out)).
Proof.
  unfold bulk_set_state. revert acc.
  induction updates as [|[f v] us IH]; intros acc; simpl.
  - by rewrite app_nil_r.
  - rewrite step_acc, (step_acc _ [] f v).
    destruct (bulk_set_state_step state [] f v) as [out|e]; simpl; [|done].
    rewrite (IH (acc ++ out)), (IH out).
    destruct (bulk_set_state_loop state us []) as [out'|e]; simpl; [|done].
    by rewrite app_assoc.
Qed.

Lemma bulk_set_state_cons (state : gmap string value) (field_name : string)
    (v : value) (updates : list (string * value)) :
  bulk_set_state state ((field_name, v) :: updates) =
    (a ← bulk_set_state_step state [] field_name v;
     b ← bulk_set_state state updates;
     Ok (a ++ b)).
Proof.
  unfold bulk_set_state at 1. simpl.
  destruct (bulk_set_state_step state [] field_name v) as [a|e]; simpl; [|done].
  apply loop_acc.
Qed.

Lemma bulk_set_state_app (state : gmap string value)
    (us vs : list (string * value)) :
  bulk_set_state state (us ++ vs) =
    (a ← bulk_set_state state us; b ← bulk_set_state state vs; Ok (a ++ b)).
Proof.
  induction us as [|[f v] us IH]; simpl.
  - by destruct (bulk_set_state state vs).
  - rewrite !bulk_set_state_cons, IH.
    destruct (bulk_set_state_step state [] f v) as [a|e]; simpl; [|done].
    destruct (bulk_set_state state us) as [b|e]; simpl; [|done].
    destruct (bulk_set_state state vs) as [c|e]; simpl; [|done].
    by rewrite app_assoc.
Qed.

(** An update in the middle of a list whose other updates go through. *)
Lemma bulk_set_state_middle (state : gmap string value)
    (pre post out_pre out_post : list (string * value))
    (field_name : string) (v : value) :
  bulk_set_state state pre = Ok out_pre →
  bulk_set_state state post = Ok out_post →
  bulk_set_state state (pre ++ (field_name, v) :: post) =
    (out ← bulk_set_state_step state [] field_name v;
     Ok (out_pre ++ out ++ out_post)).
Proof.
  intros Hpre Hpost.
  rewrite bulk_set_state_app, Hpre, bulk_set_state_cons, Hpost. simpl.
  by destruct (bulk_set_state_step state [] field_name v).
Qed.

(** ** When the reconciler raises *)

Lemma step_raises (state : gmap string value) (acc : list (string * value))
    (field_name : string) (v : value) :
  raises (bulk_set_state_step state acc field_name v)
  ↔ unguarded_merge state (field_name, v).
Proof.
  unfold bulk_set_state_step, unguarded_merge, deepcopy, dict_get. simpl. split.
  - destruct (Text.contains "." field_name) eqn:Hc.
    + destruct (TextFacts.contains_split1 _ _ Hc) as (parent & child & ->).
      destruct (state !! parent) as [[| | | | | | |pv]|] eqn:Hp; simpl; try done.
      * destruct v; simpl; try done.
        destruct (pv !! child) as [existing|] eqn:Hch; simpl; [|done].
        destruct existing; simpl; try done; intros _.
        all: by eexists parent, child, pv, _; repeat split.
      * by destruct v.
    + repeat case_match; done.
  - intros (parent & child & pv & existing & -> & -> & -> & Hch & Hv & He). simpl.
    destruct v; try done. rewrite Hch. by destruct existing.
Qed.

Lemma bulk_set_state_raises (state : gmap string value)
    (updates : list (string * value)) :
  raises (bulk_set_state state updates) ↔ Exists (unguarded_merge state) updates.
Proof.
  induction updates as [|[f v] updates IH].
  - split; [done|]. by intros ?%Exists_nil.
  - rewrite bulk_set_state_cons, Exists_cons, <-IH, <-(step_raises state [] f v).
    destruct (bulk_set_state_step state [] f v) as [a|e]; simpl.
    + destruct (bulk_set_state state updates); simpl; tauto.
    + tauto.
Qed.

(** ** The rule for a dotted field name *)

(** What a turn does with ["parent.child"]. *)
Lemma step_dotted (state : gmap string value) (parent child : string) (v : value) :
  Text.contains "." parent = false →
  bulk_set_state_step state [] (parent +:+ "." +:+ child) v =
    match dict_get state parent (VDict ∅) with
    | VDict pv =>
        match v with
        | VDict _ =>
            match pv !! child with
            | Some existing =>
                merged ← dict_display existing v;
                Ok [(parent, VDict (<[child := merged]> pv))]
            | None => Ok [(parent, VDict (<[child := v]> pv))]
            end
        | _ => Ok [(parent, VDict (<[child := v]> pv))]
        end
    | _ => Ok []
    end.
Proof.
  intros Hp. unfold bulk_set_state_step.
  change (parent +:+ "." +:+ child) with (parent +:+ String "."%char child).
  rewrite TextFacts.contains_app_char, (TextFacts.split1_app_char _ _ _ Hp).
  unfold deepcopy. by repeat case_match.
Qed.

(** C1.  [bulk_set_state] raises: with the state
    [{"quiz_state": {"state": "idle", "progress": 0}}], the update
    [("quiz_state.progress", {"step": 1})] finds a nested target that is
    not a mapping and [{**0, **{"step": 1}}] raises [TypeError]; the
    exception leaves the call, so the updates before and after it in the
    same list are lost with it although each of them alone goes through.
    This is the only way the call raises: it does exactly when one of the
    updates offers a mapping for ["parent.child"] where the parent is a
    mapping whose [child] entry is not one. *)
Theorem bulk_set_state_nested_target_raises :
  bulk_set_state state1 [("quiz_state.progress", VDict {[ "step" := VInt 1 ]})]
    = Raise TypeError
  ∧ bulk_set_state state1
      [("score", VInt 1);
       ("quiz_state.progress", VDict {[ "step" := VInt 1 ]});
       ("user", VStr "Mo")] = Raise TypeError
  ∧ bulk_set_state state1 [("score", VInt 1)] = Ok [("score", VInt 1)]
  ∧ bulk_set_state state1 [("user", VStr "Mo")] = Ok [("user", VStr "Mo")]
  ∧ ∀ (state : gmap string value) (updates : list (string * value)),
      raises (bulk_set_state state updates) ↔ Exists (unguarded_merge state) updates.
Proof.
  split; [vm_compute; reflexivity|].
  split; [vm_compute; reflexivity|].
  split; [vm_compute; reflexivity|].
  split; [vm_compute; reflexivity|].
  apply bulk_set_state_raises.
Qed.

(** C2, as stated, fails: when the parent holds a value that is not a
    mapping, nothing is emitted for the update.  State
    [{"quiz_state": "idle"}], update [("quiz_state.progress", 1)]: the
    result is the empty list, not [[("quiz_state", {"progress": 1})]]. *)
Lemma dotted_update_on_non_mapping_parent_is_dropped :
  let state : gmap string value := {[ "quiz_state" := VStr "idle" ]} in
  bulk_set_state state [("quiz_state.progress", VInt 1)] = Ok []
  ∧ bulk_set_state state [("quiz_state.progress", VInt 1)]
      ≠ Ok [("quiz_state", VDict {[ "progress" := VInt 1 ]})].
Proof. split; [vm_compute; reflexivity | vm_compute; discriminate]. Qed.

(** C2, amended.  An update ["parent.child"] (cut at the first dot), at
    any place in a list whose other updates go through: if the parent is
    absent from the state or holds a mapping, exactly one pair
    [(parent, merged)] is emitted at that place, where [merged] is the
    parent's mapping (empty when absent) with [child] set to the incoming
    value merged onto [parent[child]] when both are mappings (incoming
    keys win, the other keys stay), and to the incoming value itself when
    it is not a mapping or the parent has no [child]; if the parent holds
    anything else, the update is skipped and nothing is emitted for it.
    (An incoming mapping over a [parent[child]] that is not a mapping is
    left out of the statement.) *)
Theorem bulk_set_state_dotted (state : gmap string value)
    (parent child : string) (v : value)
    (pre post out_pre out_post : list (string * value)) :
  Text.contains "." parent = false →
  bulk_set_state state pre = Ok out_pre →
  bulk_set_state state post = Ok out_post →
  let updates := pre ++ (parent +:+ "." +:+ child, v) :: post in
  match dict_get state parent (VDict ∅) with
  | VDict pv =>
      match v, pv !! child with
      | VDict incoming, Some (VDict existing) =>
          bulk_set_state state updates =
            Ok (out_pre
                  ++ [(parent, VDict (<[child := VDict (dict_merge existing incoming)]> pv))]
                  ++ out_post)
          ∧ ∀ k, dict_merge existing incoming !! k =
                   match incoming !! k with
                   | Some x => Some x
                   | None => existing !! k
                   end
      | VDict _, Some _ => True
      | _, _ =>
          bulk_set_state state updates =
            Ok (out_pre ++ [(parent, VDict (<[child := v]> pv))] ++ out_post)
      end
  | _ => bulk_set_state state updates = Ok (out_pre ++ out_post)
  end.
Proof.
  intros Hp Hpre Hpost updates. unfold updates.
  rewrite (bulk_set_state_middle _ _ _ _ _ _ _ Hpre Hpost), (step_dotted _ _ _ _ Hp).
  destruct (dict_get state parent (VDict ∅)) as [| | | | | | |pv]; try done.
  destruct v as [| | | | | | |incoming]; try done;
    destruct (pv !! child) as [[| | | | | | |existing]|]; try done.
  split; [done|]. intros k. apply dict_merge_lookup.
Qed.

Lemma bulk_set_state_dotted_witness :
  bulk_set_state state2
    [("user.preferences", VDict {[ "theme" := VStr "dark" ]}); ("n", VInt 1)]
  = Ok [("user",
         VDict {[ "name" := VStr "Mo";
                  "preferences" := VDict {[ "difficulty_level" := VNone;
                                            "theme" := VStr "dark" ]} ]});
        ("n", VInt 1)].
Proof.
  pose proof (bulk_set_state_dotted state2 "user" "preferences"
                (VDict {[ "theme" := VStr "dark" ]}) [] [("n", VInt 1)] [] [("n", VInt 1)]
                eq_refl eq_refl eq_refl) as W.
  vm_compute in W. destruct W as [W _]. vm_compute. exact W.
Defined.

(** ** The rule for a mapping on a top-level field *)

Lemma step_top_level_mapping (state : gmap string value) (field_name : string)
    (incoming : gmap string value) :
  Text.contains "." field_name = false →
  bulk_set_state_step state [] field_name (VDict incoming) =
    Ok [(field_name,
         VDict (dict_merge
                  match state !! field_name with
                  | Some (VDict current) => current
                  | _ => ∅
                  end incoming))].
Proof.
  intros Hf. unfold bulk_set_state_step. rewrite Hf. unfold deepcopy.
  repeat case_match; simpl; by rewrite ?dict_merge_empty.
Qed.

(** C4.  A mapping offered for a field without a dot, at any place in a
    list whose other updates go through, is merged onto the mapping the
    state holds for that field (onto the empty mapping when the field is
    absent or holds something else): incoming keys win and the other keys
    of the current mapping stay.  With
    [{"quiz_state": {"state": "idle", "progress": 0}}] and
    [("quiz_state", {"state": "awaiting_answer"})] the result is
    [[("quiz_state", {"state": "awaiting_answer", "progress": 0})]]. *)
Theorem bulk_set_state_top_level_mapping :
  (∀ (state : gmap string value) (field_name : string)
     (incoming : gmap string value)
     (pre post out_pre out_post : list (string * value)),
     Text.contains "." field_name = false →
     bulk_set_state state pre = Ok out_pre →
     bulk_set_state state post = Ok out_post →
     let current :=
       match state !! field_name with
       | Some (VDict current) => current
       | _ => ∅
       end in
     bulk_set_state state (pre ++ (field_name, VDict incoming) :: post) =
       Ok (out_pre ++ [(field_name, VDict (dict_merge current incoming))] ++ out_post)
     ∧ ∀ k, dict_merge current incoming !! k =
              match incoming !! k with
              | Some x => Some x
              | None => current !! k
              end)
  ∧ bulk_set_state
      {[ "quiz_state" := VDict {[ "state" := VStr "idle"; "progress" := VInt 0 ]} ]}
      [("quiz_state", VDict {[ "state" := VStr "awaiting_answer" ]})]
    = Ok [("quiz_state",
           VDict {[ "state" := VStr "awaiting_answer"; "progress" := VInt 0 ]})].
Proof.
  split.
  - intros state field_name incoming pre post out_pre out_post Hf Hpre Hpost current.
    split; [|intros k; apply dict_merge_lookup].
    by rewrite (bulk_set_state_middle _ _ _ _ _ _ _ Hpre Hpost),
         (step_top_level_mapping _ _ _ Hf).
  - vm_compute. reflexivity.
Qed.

Lemma bulk_set_state_top_level_mapping_witness :
  bulk_set_state state2
    [("n", VInt 1); ("user", VDict {[ "name" := VStr "Al" ]}); ("quiz_state", VDict ∅)]
  = Ok [("n", VInt 1);
        ("user", VDict {[ "name" := VStr "Al";
                          "preferences" := VDict {[ "difficulty_level" := VNone ]} ]});
        ("quiz_state", VDict ∅)].
Proof.
  pose proof (proj1 bulk_set_state_top_level_mapping state2 "user"
                {[ "name" := VStr "Al" ]} [("n", VInt 1)] [("quiz_state", VDict ∅)]
                [("n", VInt 1)] [("quiz_state", VDict ∅)]
                eq_refl eq_refl eq_refl) as [W _].
  vm_compute in W. vm_compute. exact W.
Defined.

End Reconcile.

(* ===================================================================== *)
(** * The store: what a call may write to *)
(* ===================================================================== *)

Module StoreFacts.
Import Store StoreUtils Terms Samples.
#[local] Open Scope nat_scope.

Section rules.
Context (h0 : heap).

Lemma keeps_ret {A} (a : A) (Q : A → Prop) : Q a → keeps h0 (mret a) Q.
Proof. intros Ha h Hh. split; [done|]. by intros ? [= <-]. Qed.

Lemma keeps_raise {A} (e : exn) (Q : A → Prop) : keeps h0 (raise e) Q.
Proof. intros h Hh. by split. Qed.

Lemma keeps_pure {A} (c : res A) (Q : A → Prop) :
  (∀ a, c = Ok a → Q a) → keeps h0 (pure c) Q.
Proof. intros Hc h Hh. by split. Qed.

Lemma keeps_bind {A B} (c : H A) (k : A → H B) (P : A → Prop) (Q : B → Prop) :
  keeps h0 c P → (∀ a, P a → keeps h0 (k a) Q) → keeps h0 (c ≫= k) Q.
Proof.
  intros Hc Hk h Hh. destruct (Hc h Hh) as [Hh' HP].
  unfold mbind, H_bind, bind.
  destruct (c h) as [[a|e] h']; simpl in *; [|by split].
  apply (Hk a (HP a eq_refl) h' Hh').
Qed.

Lemma keeps_weaken {A} (c : H A) (P Q : A → Prop) :
  keeps h0 c P → (∀ a, P a → Q a) → keeps h0 c Q.
Proof. intros Hc HPQ h Hh. destruct (Hc h Hh). naive_solver. Qed.

Lemma keeps_alloc (c : cell) : keeps h0 (alloc c) (λ l, length h0 ≤ l).
Proof.
  intros h Hh. unfold alloc; simpl. split.
  - by apply prefix_app_r.
  - intros l [= <-]. by apply prefix_length.
Qed.

Lemma keeps_read (l : loc) : keeps h0 (read l) (λ _, True).
Proof. intros h Hh. unfold read. case_match; by split. Qed.

Lemma keeps_get_heap : keeps h0 get_heap (λ _, True).
Proof. intros h Hh. by split. Qed.

(** Writing to an address outside [h0] keeps [h0]. *)
Lemma keeps_write (l : loc) (c : cell) :
  length h0 ≤ l → keeps h0 (write l c) (λ _, True).
Proof.
  intros Hl h [k ->]. unfold write; simpl. split; [|done].
  rewrite insert_app_r_alt by done. by apply prefix_app_r.
Qed.

Lemma keeps_dict_at (r : ref) :
  keeps h0 (dict_at r) (λ d, ∀ l m, d = Some (l, m) → r = RLoc l).
Proof.
  destruct r; try (apply keeps_ret; done).
  eapply keeps_bind; [apply keeps_read|].
  intros [] _; apply keeps_ret; naive_solver.
Qed.

Lemma keeps_list_at (r : ref) :
  keeps h0 (list_at r) (λ d, ∀ l xs, d = Some (l, xs) → r = RLoc l).
Proof.
  destruct r; try (apply keeps_ret; done).
  eapply keeps_bind; [apply keeps_read|].
  intros [] _; apply keeps_ret; naive_solver.
Qed.

(** ** Deep copies are made of new objects *)

Lemma memo_fresh_insert (memo : gmap loc loc) (l l' : loc) :
  memo_fresh h0 memo → length h0 ≤ l' → memo_fresh h0 (<[l := l']> memo).
Proof.
  intros Hm Hl k k'. rewrite lookup_insert. case_decide; [|apply Hm].
  by intros [= <-].
Qed.

Lemma keeps_copy_all (copy : ref → gmap loc loc → H (ref * gmap loc loc))
    (xs : list ref) (memo : gmap loc loc) :
  (∀ x memo, memo_fresh h0 memo →
             keeps h0 (copy x memo) (λ ym, fresh h0 ym.1 ∧ memo_fresh h0 ym.2)) →
  memo_fresh h0 memo →
  keeps h0 (copy_all copy xs memo) (λ ysm, memo_fresh h0 ysm.2).
Proof.
  intros Hcopy. revert memo. induction xs as [|x xs IH]; intros memo Hm; simpl.
  - by apply keeps_ret.
  - eapply keeps_bind; [by apply Hcopy|]. intros [y memo1] [_ Hm1].
    eapply keeps_bind; [by apply IH|]. intros [ys memo2] Hm2.
    by apply keeps_ret.
Qed.

Lemma keeps_deepcopy_memo (fuel : nat) (x : ref) (memo : gmap loc loc) :
  memo_fresh h0 memo →
  keeps h0 (deepcopy_memo fuel x memo) (λ ym, fresh h0 ym.1 ∧ memo_fresh h0 ym.2).
Proof.
  revert x memo. induction fuel as [|fuel IH]; intros x memo Hm;
    destruct x as [| | | | |l]; simpl; try (by apply keeps_ret).
  - destruct (memo !! l) as [l'|] eqn:Hl.
    + apply keeps_ret; split; [by eapply Hm|done].
    + apply keeps_raise.
  - destruct (memo !! l) as [l'|] eqn:Hl.
    { apply keeps_ret; split; [by eapply Hm|done]. }
    eapply keeps_bind; [apply keeps_read|]. intros [xs|xs|m] _.
    + eapply keeps_bind; [apply keeps_alloc|]. intros l' Hl'.
      eapply keeps_bind;
        [apply keeps_copy_all; [apply IH|by apply memo_fresh_insert]|].
      intros [ys memo'] Hm'.
      eapply keeps_bind; [by apply keeps_write|]. intros _ _.
      by apply keeps_ret.
    + eapply keeps_bind; [apply keeps_copy_all; [apply IH|done]|].
      intros [ys memo'] Hm'.
      eapply keeps_bind; [apply keeps_alloc|]. intros l' Hl'.
      apply keeps_ret. split; [done|by apply memo_fresh_insert].
    + eapply keeps_bind; [apply keeps_alloc|]. intros l' Hl'.
      eapply keeps_bind;
        [apply keeps_copy_all; [apply IH|by apply memo_fresh_insert]|].
      intros [ys memo'] Hm'.
      eapply keeps_bind; [by apply keeps_write|]. intros _ _.
      by apply keeps_ret.
Qed.

Lemma keeps_deepcopy (fuel : nat) (x : ref) :
  keeps h0 (deepcopy fuel x) (fresh h0).
Proof.
  eapply keeps_bind; [by apply keeps_deepcopy_memo|].
  intros [y memo] [Hy _]. by apply keeps_ret.
Qed.

End rules.

(** ** [bulk_set_state] writes to new objects only *)

Create HintDb keeps discriminated.
#[local] Hint Resolve keeps_alloc keeps_read keeps_get_heap keeps_dict_at
  keeps_list_at keeps_deepcopy keeps_raise : keeps.

(** Freshness side conditions: an address obtained through [dict_at] or
    [list_at] from a fresh reference is fresh. *)
Ltac fresh_addr :=
  repeat match goal with
         | Hd : ∀ l m, Some (?a, ?b) = Some (l, m) → _ |- _ =>
             specialize (Hd _ _ eq_refl)
         end;
  simplify_eq/=; try done; try lia.

(** One statement of a transcribed function after the other. *)
Ltac keeps_step :=
  lazymatch goal with
  | |- keeps _ (mret _) _ => by apply keeps_ret
  | |- keeps _ (raise _) _ => apply keeps_raise
  | |- keeps _ (write _ _ ≫= _) _ =>
      eapply keeps_bind; [apply keeps_write; fresh_addr | intros ? ?]
  | |- keeps _ (write _ _) _ => apply keeps_write; fresh_addr
  | |- keeps _ (match ?x with _ => _ end ≫= _) _ => destruct x eqn:?
  | |- keeps _ (match ?x with _ => _ end _) _ => destruct x eqn:?
  | |- keeps _ ((_ ≫= _) ≫= _) _ =>
      eapply (keeps_bind _ _ _ (λ _, True)); [ | intros ? ?]
  | |- keeps _ (mret _ ≫= _) _ =>
      eapply keeps_bind; [apply (keeps_ret _ _ (λ _, True) I) | intros ? ?]
  | |- keeps _ (_ ≫= _) _ =>
      eapply keeps_bind; [solve [eauto with keeps] | intros ? ?]
  | |- keeps _ (match ?x with _ => _ end) _ => destruct x eqn:?
  | |- keeps _ (if ?x then _ else _) _ => destruct x eqn:?
  | |- keeps _ (let '(_, _) := ?x in _) _ => destruct x eqn:?
  end.

Section reconciler.
Context (h0 : heap) (fuel : nat).

Lemma keeps_same_id (new_card : gmap string ref) (card : ref) :
  keeps h0 (same_id fuel new_card card) (λ _, True).
Proof.
  unfold same_id. repeat keeps_step. by apply keeps_pure.
Qed.

Lemma keeps_find_card (new_card : gmap string ref) (cards : list ref) (i : nat) :
  keeps h0 (find_card fuel new_card cards i) (λ _, True).
Proof.
  revert i. induction cards as [|card cards IH]; intros i; simpl.
  - keeps_step.
  - eapply keeps_bind; [apply keeps_same_id|]. intros [] _; [|apply IH].
    repeat keeps_step.
Qed.

Lemma keeps_upsert_card (updated_flashcards : loc) (new_card : ref) :
  length h0 ≤ updated_flashcards →
  keeps h0 (upsert_card fuel updated_flashcards new_card) (λ _, True).
Proof.
  intros Hu. unfold upsert_card.
  repeat first
    [ eapply keeps_bind; [apply keeps_find_card|intros ? ?]
    | keeps_step ].
Qed.

Lemma keeps_upsert_cards (updated_flashcards : loc) (value : list ref) :
  length h0 ≤ updated_flashcards →
  keeps h0 (upsert_cards fuel updated_flashcards value) (λ _, True).
Proof.
  intros Hu. induction value as [|new_card value IH]; simpl.
  - keeps_step.
  - eapply keeps_bind; [by apply keeps_upsert_card|]. by intros _ _.
Qed.

Lemma keeps_bulk_set_state_step (state : loc)
    (merged_updates : list (string * ref)) (field_name : string) (value : ref) :
  keeps h0 (bulk_set_state_step fuel state merged_updates field_name value)
    (λ _, True).
Proof.
  unfold bulk_set_state_step.
  repeat first
    [ eapply keeps_bind; [by apply keeps_upsert_cards; fresh_addr|intros ? ?]
    | keeps_step ].
Qed.

Lemma keeps_bulk_set_state_loop (state : loc)
    (updates merged_updates : list (string * ref)) :
  keeps h0 (bulk_set_state_loop fuel state updates merged_updates) (λ _, True).
Proof.
  revert merged_updates.
  induction updates as [|[field_name value] updates IH]; intros acc; simpl.
  - keeps_step.
  - eapply keeps_bind; [apply keeps_bulk_set_state_step|]. intros acc' _. apply IH.
Qed.

End reconciler.

(** The turns for [us ++ vs]: those for [us], then those for [vs] from the
    store and the list the former leave. *)
Lemma bulk_set_state_loop_app (fuel : nat) (state : loc)
    (us vs acc : list (string * ref)) (h : heap) :
  bulk_set_state_loop fuel state (us ++ vs) acc h =
    match bulk_set_state_loop fuel state us acc h with
    | (Ok acc', h') => bulk_set_state_loop fuel state vs acc' h'
    | (Raise e, h') => (Raise e, h')
    end.
Proof.
  revert acc h. induction us as [|[field_name value] us IH]; intros acc h; [done|].
  simpl. unfold mbind, H_bind, bind.
  destruct (bulk_set_state_step fuel state acc field_name value h) as [[acc'|e] h'];
    [apply IH|done].
Qed.

Lemma bulk_set_state_extends (fuel : nat) (h : heap) (state : loc)
    (updates : list (string * ref)) :
  h `prefix_of` (bulk_set_state fuel state updates h).2.
Proof. by destruct (keeps_bulk_set_state_loop h fuel state updates [] h). Qed.

(** Whatever the store, the state and the updates, and whether the call
    returns or raises: every object that was in the store before
    [bulk_set_state] is in it, unchanged, afterwards. *)
Lemma bulk_set_state_frame (fuel : nat) (h : heap) (state : loc)
    (updates : list (string * ref)) (l : loc) (c : cell) :
  h !! l = Some c → (bulk_set_state fuel state updates h).2 !! l = Some c.
Proof.
  intros Hl.
  by apply (prefix_lookup_Some _ _ _ _ Hl), bulk_set_state_extends.
Qed.

End StoreFacts.

(* ===================================================================== *)
(** * The reconciler reads one snapshot and writes to none *)
(* ===================================================================== *)

Module Snapshot.
Import StateUtils Terms Samples.

(** On this input the stored reconciler and the reconciler on values
    return the same pairs, and the eleven objects built for the input are
    afterwards what they were. *)
Example stored_reconciler_agrees :
  let run := StoreUtils.bulk_set_state_on_values 10 state3 updates3 in
  run.1 = Some (bulk_set_state state3 updates3)
  ∧ run.2.1 = run.2.2 ∧ length run.2.1 = 11%nat.
Proof. vm_compute. repeat split; reflexivity. Qed.

(** So they do where the call raises, and where an existing nested mapping
    is merged and a malformed queue is skipped. *)
Example stored_reconciler_agrees_on_failure :
  let updates :=
    [("score", VInt 1); ("quiz_state.state", VDict {[ "turn" := VInt 2 ]});
     ("user", VStr "Mo")] in
  let run := StoreUtils.bulk_set_state_on_values 10 state1 updates in
  run.1 = Some (bulk_set_state state1 updates)
  ∧ run.1 = Some (Raise TypeError) ∧ run.2.1 = run.2.2.
Proof. vm_compute. repeat split; reflexivity. Qed.

Example stored_reconciler_agrees_on_nested :
  let updates :=
    [("user.name.first", VInt 1);
     ("user.preferences", VDict {[ "theme" := VStr "dark" ]});
     ("user.nickname", VDict {[ "first" := VStr "Mo" ]});
     ("user.name.first.letter", VStr "M");
     ("flashcard_states", VStr "none")] in
  let run := StoreUtils.bulk_set_state_on_values 10 state2 updates in
  run.1 = Some (bulk_set_state state2 updates)
  ∧ (out ← bulk_set_state state2 updates; Ok (length out)) = Ok 4%nat
  ∧ run.2.1 = run.2.2.
Proof. vm_compute. repeat split; reflexivity. Qed.

(** C7.  Each update of a list is reconciled against the state given to
    the call: the result for [us ++ vs] is the result for [us] followed by
    the result for [vs], both computed against the same [state]; so of two
    updates to one field the second does not see the first (with
    [{"quiz_state": {"state": "idle"}}], [("quiz_state", {"progress": 1})]
    then [("quiz_state", {"hint": "x"})] give a second pair without
    [progress]).  And the call writes to no object it was given: in the
    store, every object present before the call is unchanged after it,
    whether the call returns or raises; the updates [vs] that follow [us]
    are reconciled in a store in which every object of the initial store,
    the state among them, is what it was. *)
Theorem bulk_set_state_reads_snapshot_writes_nothing :
  (∀ (state : gmap string value) (us vs : list (string * value)),
     bulk_set_state state (us ++ vs) =
       (a ← bulk_set_state state us; b ← bulk_set_state state vs; Ok (a ++ b)))
  ∧ bulk_set_state {[ "quiz_state" := VDict {[ "state" := VStr "idle" ]} ]}
      [("quiz_state", VDict {[ "progress" := VInt 1 ]});
       ("quiz_state", VDict {[ "hint" := VStr "x" ]})]
    = Ok [("quiz_state", VDict {[ "state" := VStr "idle"; "progress" := VInt 1 ]});
          ("quiz_state", VDict {[ "state" := VStr "idle"; "hint" := VStr "x" ]})]
  ∧ (∀ (fuel : nat) (h : list Store.cell) (state : nat)
       (updates : list (string * Store.ref)) (l : nat) (c : Store.cell),
       h !! l = Some c →
       (StoreUtils.bulk_set_state fuel state updates h).2 !! l = Some c)
  ∧ (∀ (fuel : nat) (h : list Store.cell) (state : nat)
       (us vs : list (string * Store.ref)),
       let first := StoreUtils.bulk_set_state fuel state us h in
       h `prefix_of` first.2
       ∧ StoreUtils.bulk_set_state fuel state (us ++ vs) h =
           match first.1 with
           | Ok merged_updates =>
               StoreUtils.bulk_set_state_loop fuel state vs merged_updates first.2
           | Raise e => (Raise e, first.2)
           end).
Proof.
  split; [apply Reconcile.bulk_set_state_app|].
  split; [vm_compute; reflexivity|].
  split; [apply StoreFacts.bulk_set_state_frame|].
  intros fuel h state us vs first. split; [apply StoreFacts.bulk_set_state_extends|].
  unfold first, StoreUtils.bulk_set_state.
  rewrite StoreFacts.bulk_set_state_loop_app.
  by destruct (StoreUtils.bulk_set_state_loop fuel state us [] h) as [[]].
Qed.

Lemma bulk_set_state_reads_snapshot_writes_nothing_witness :
  (StoreUtils.bulk_set_state 5 1
     [("quiz_state", Store.RLoc 2); ("quiz_state.progress", Store.RInt 7)] heap3).2
    !! 1%nat
  = Some (Store.CDict {[ "quiz_state" := Store.RLoc 0 ]}).
Proof.
  apply (proj1 (proj2 (proj2 bulk_set_state_reads_snapshot_writes_nothing))).
  reflexivity.
Defined.

End Snapshot.

(* ===================================================================== *)
(** * The flashcard queue: [populate_flashcards] *)
(* ===================================================================== *)

Module Populate.
Import StateUtils Terms Samples.

Section populate.
Variable get_flashcards_by_topic_id : value → list flashcard_row.

Lemma populate_flashcards_length (topic_id : value) :
  length (populate_flashcards get_flashcards_by_topic_id topic_id)
  = length (get_flashcards_by_topic_id topic_id).
Proof.
  unfold populate_flashcards.
  destruct (get_flashcards_by_topic_id topic_id) as [|r rs]; [done|].
  simpl. by rewrite length_fmap.
Qed.

Lemma populate_flashcards_lookup (topic_id : value) (i : nat)
    (row : flashcard_row) :
  get_flashcards_by_topic_id topic_id !! i = Some row →
  populate_flashcards get_flashcards_by_topic_id topic_id !! i
  = Some (if bool_decide (i = 0%nat)
          then <["status" := VStr "active"]> (new_flashcard_state row)
          else new_flashcard_state row).
Proof.
  unfold populate_flashcards.
  destruct (get_flashcards_by_topic_id topic_id) as [|r rs]; [done|].
  destruct i as [|i]; simpl.
  - by intros [= ->].
  - intros Hi. by rewrite list_lookup_fmap, Hi.
Qed.

End populate.

Lemma count_active_queued (rows : list flashcard_row) :
  count_active (new_flashcard_state <$> rows) = 0%nat.
Proof.
  unfold count_active. induction rows as [|r rs IH]; [done|].
  rewrite fmap_cons, filter_cons_False; [done|].
  unfold new_flashcard_state, dict_get. by simplify_map_eq.
Qed.

(** C8.  When the repository answers with at least one row, the queue has
    one entry per row, in order; the entry at index 0 has status [active]
    and every other entry has status [queued], so exactly one entry is
    active; every entry carries the id, question and marking criteria of
    its row, [attempts = 0], no user answers and no evaluation.  When the
    repository answers with no row the queue is empty. *)
Theorem populate_flashcards_queue
    (get_flashcards_by_topic_id : value → list flashcard_row) (topic_id : value) :
  let rows := get_flashcards_by_topic_id topic_id in
  let queue := populate_flashcards get_flashcards_by_topic_id topic_id in
  (rows = [] → queue = [])
  ∧ (rows ≠ [] →
     length queue = length rows
     ∧ count_active queue = 1%nat
     ∧ ∀ (i : nat) (row : flashcard_row),
         rows !! i = Some row →
         ∃ card, queue !! i = Some card
           ∧ card !! "status" = Some (VStr (if bool_decide (i = 0%nat)
                                             then "active" else "queued"))
           ∧ card !! "id" = Some (row_id row)
           ∧ card !! "question" = Some (row_question row)
           ∧ card !! "marking_criteria" = Some (row_marking_criteria row)
           ∧ card !! "attempts" = Some (VInt 0)
           ∧ card !! "user_answers" = Some (VList [])
           ∧ card !! "evaluation" = Some VNone).
Proof.
  intros rows queue. split.
  - intros Hr. unfold queue, populate_flashcards. fold rows. by rewrite Hr.
  - intros Hr. split; [apply populate_flashcards_length|]. split.
    + unfold queue, populate_flashcards. fold rows.
      destruct rows as [|r rs]; [done|]. simpl.
      unfold count_active.
      rewrite filter_cons_True by (unfold dict_get; by simplify_map_eq).
      simpl. f_equal. apply count_active_queued.
    + intros i row Hi. eexists. split.
      { by apply populate_flashcards_lookup. }
      unfold new_flashcard_state.
      case_bool_decide; by simplify_map_eq.
Qed.

Lemma populate_flashcards_queue_witness :
  populate_flashcards repository1 (VInt 5) = []
  ∧ count_active (populate_flashcards repository1 (VInt 2)) = 1%nat.
Proof.
  split.
  - apply (proj1 (populate_flashcards_queue repository1 (VInt 5))). reflexivity.
  - apply (proj2 (populate_flashcards_queue repository1 (VInt 2))). discriminate.
Defined.

End Populate.

(* ===================================================================== *)
(** * The parsers: [parse_tool_input] and [parse_llm_plan_response] *)
(* ===================================================================== *)

Module Parsing.
Import StateUtils Terms Samples.

Section parsers.
Variable json_loads : string → res value.

(** ** [parse_tool_input] *)

Lemma reserved_ok_nil : reserved_ok [].
Proof. intros v Hv. by apply elem_of_nil in Hv. Qed.

Lemma reserved_ok_snoc (updates : list (string * value)) (key : string) (v : value) :
  reserved_ok updates →
  (key = "flashcard_states" → records v) →
  reserved_ok (updates ++ [(key, v)]).
Proof.
  intros Hu Hv w Hw. apply elem_of_app in Hw as [Hw|Hw]; [by apply Hu|].
  apply list_elem_of_singleton in Hw. injection Hw as <- <-. by apply Hv.
Qed.

Lemma records_filter (cards : list value) :
  records (VList (filter (λ card, isinstance_dict card = true) cards)).
Proof.
  eexists. split; [done|]. apply Forall_forall. intros card Hc.
  by apply list_elem_of_filter in Hc as [Hc _].
Qed.

(** A turn on an item whose key is the reserved name. *)
Lemma parse_tool_input_item_reserved (updates : list (string * value))
    (item key text : string) :
  Text.split1 "=" (Text.strip item) = [key; text] →
  Text.strip key = "flashcard_states" →
  parse_tool_input_item json_loads updates item =
    match json_loads (Text.strip text) with
    | Ok (VList cards) =>
        Ok (updates ++ [("flashcard_states",
                         VList (filter (λ card, isinstance_dict card = true) cards))])
    | Ok _ => Ok updates
    | Raise e => if is_ValueError e then Ok updates else Raise e
    end.
Proof.
  intros Hs Hk. unfold parse_tool_input_item, parse_tool_input_try.
  rewrite Hs, Hk. simpl.
  destruct (json_loads (Text.strip text)) as [[]|[]]; done.
Qed.

Lemma parse_tool_input_item_reserved_ok (updates updates' : list (string * value))
    (item : string) :
  reserved_ok updates →
  parse_tool_input_item json_loads updates item = Ok updates' →
  reserved_ok updates'.
Proof.
  intros Hu. unfold parse_tool_input_item, parse_tool_input_try.
  destruct (Text.split1 "=" (Text.strip item)) as [|key [|text [|]]]; simpl;
    try (by intros [= <-]).
  destruct (json_loads (Text.strip text)) as [parsed|e].
  - case_bool_decide as Hk.
    + destruct parsed; intros [= <-]; try done.
      apply reserved_ok_snoc; [done|]. intros _. apply records_filter.
    + intros [= <-]. by apply reserved_ok_snoc.
  - destruct e; simpl; try (by intros [= <-]).
    case_bool_decide as Hk; intros [= <-]; [done|]. by apply reserved_ok_snoc.
Qed.

Lemma parse_tool_input_loop_reserved_ok (items : list string)
    (updates out : list (string * value)) :
  reserved_ok updates →
  parse_tool_input_loop json_loads items updates = Ok out →
  reserved_ok out.
Proof.
  revert updates. induction items as [|item items IH]; intros updates Hu; simpl.
  - by intros [= <-].
  - destruct (parse_tool_input_item json_loads updates item) as [updates'|e] eqn:Hi;
      simpl; [|done].
    apply IH. by eapply parse_tool_input_item_reserved_ok.
Qed.

End parsers.

(** C5, as stated, fails: a [flashcard_states] item whose value decodes to
    a sequence with an element that is not a mapping is not dropped; it is
    inserted with that element filtered out.  The item
    [flashcard_states=[{"id": 1}, 5]] yields
    [("flashcard_states", [{"id": 1}])], and not the empty list. *)
Lemma mixed_flashcard_states_is_filtered_not_dropped :
  parse_tool_input Json.loads mixed_item
    = Ok [("flashcard_states", VList [VDict {[ "id" := VInt 1 ]}])]
  ∧ parse_tool_input Json.loads mixed_item ≠ Ok [].
Proof. split; [vm_compute; reflexivity | vm_compute; discriminate]. Qed.

(** C5, amended.  Whatever the decoder: an item whose key is the reserved
    name [flashcard_states] is dropped when its value does not decode
    ([JSONDecodeError], or another [ValueError]) or decodes to something
    that is not a sequence; when the value decodes to a sequence, the item
    is inserted with the elements that are not mappings filtered out.  So
    whatever [parse_tool_input] returns, every pair under the reserved key
    holds a sequence of mapping records, never raw text. *)
Theorem parse_tool_input_flashcard_states (json_loads : string → res value) :
  (∀ (updates : list (string * value)) (item key text : string),
     Text.split1 "=" (Text.strip item) = [key; text] →
     Text.strip key = "flashcard_states" →
     parse_tool_input_item json_loads updates item =
       match json_loads (Text.strip text) with
       | Ok (VList cards) =>
           Ok (updates ++ [("flashcard_states",
                            VList (filter (λ card, isinstance_dict card = true) cards))])
       | Ok _ => Ok updates
       | Raise e => if is_ValueError e then Ok updates else Raise e
       end)
  ∧ (∀ (input_str : string) (out : list (string * value)) (v : value),
       parse_tool_input json_loads input_str = Ok out →
       ("flashcard_states", v) ∈ out →
       records v).
Proof.
  split; [apply parse_tool_input_item_reserved|].
  intros input_str out v Hout. revert v.
  eapply parse_tool_input_loop_reserved_ok; [apply reserved_ok_nil|exact Hout].
Qed.

Lemma parse_tool_input_flashcard_states_witness :
  records (VList [VDict {[ "id" := VInt 1 ]}]).
Proof.
  apply (proj2 (parse_tool_input_flashcard_states Json.loads) mixed_item
           [("flashcard_states", VList [VDict {[ "id" := VInt 1 ]}])]).
  - vm_compute. reflexivity.
  - apply list_elem_of_singleton. reflexivity.
Defined.

(** ** [parse_llm_plan_response] *)

Section plan.
Variable json_loads : string → res value.

(** A step fragment appends what it contributes on its own. *)
Lemma parse_step_outcome (plans : list plan_tuple) (plan_description step_text : string) :
  parse_step json_loads plans plan_description step_text
  = plans ++ option_list (step_outcome json_loads (plan_description, step_text)).
Proof.
  unfold step_outcome, parse_step, parse_step_try. simpl.
  destruct (Text.split1 "=" step_text) as [|step_number [|remainder [|]]];
    simpl; rewrite ?app_nil_r; try done.
  destruct (Text.find _ _ =? -1); simpl; rewrite ?app_nil_r; [done|].
  destruct (scan_brackets _ _ _) as [end_idx bracket_count].
  destruct ((end_idx =? -1) || negb (bracket_count =? 0));
    simpl; rewrite ?app_nil_r; [done|].
  destruct (parse_tool_input json_loads _) as [updates|e]; simpl;
    by rewrite ?app_nil_r.
Qed.

Lemma parse_steps_outcome (plans : list plan_tuple) (plan_description : string)
    (steps : list string) :
  foldl (λ plans step_text, parse_step json_loads plans plan_description step_text)
    plans steps
  = plans ++ omap (step_outcome json_loads) (pair plan_description <$> steps).
Proof.
  revert plans. induction steps as [|step_text steps IH]; intros plans; simpl.
  - by rewrite app_nil_r.
  - rewrite IH, parse_step_outcome.
    destruct (step_outcome json_loads (plan_description, step_text));
      simpl; by rewrite <-?app_assoc, ?app_nil_r.
Qed.

Lemma parse_section_outcome (plans : list plan_tuple) (section : string) :
  parse_section json_loads plans section
  = plans ++ omap (step_outcome json_loads) (section_fragments section).
Proof.
  unfold parse_section, section_fragments, parse_section_try.
  case_bool_decide; [by rewrite app_nil_r|].
  destruct (Text.split _ section) as [|part0 steps]; [by rewrite app_nil_r|].
  apply parse_steps_outcome.
Qed.

Lemma parse_sections_outcome (plans : list plan_tuple) (sections : list string) :
  foldl (parse_section json_loads) plans sections
  = plans ++ omap (step_outcome json_loads) (sections ≫= section_fragments).
Proof.
  revert plans. induction sections as [|section sections IH]; intros plans; simpl.
  - by rewrite app_nil_r.
  - rewrite IH, parse_section_outcome, omap_app. by rewrite app_assoc.
Qed.

(** The parser returns, in source order, what each step fragment
    contributes on its own. *)
Lemma parse_llm_plan_response_outcomes (response_content : string) :
  parse_llm_plan_response json_loads response_content
  = omap (step_outcome json_loads) (step_fragments response_content).
Proof. apply parse_sections_outcome. Qed.

Lemma malformed_step_outcome (plan_description step_text : string) :
  no_bracket step_text ∨ unbalanced step_text →
  step_outcome json_loads (plan_description, step_text) = None.
Proof.
  unfold step_outcome, parse_step, parse_step_try. simpl.
  intros [(n & r & -> & Hf)|(n & r & -> & Hs)]; simpl in *.
  - by rewrite Hf.
  - destruct (Text.find _ _ =? -1); [done|].
    destruct (scan_brackets _ _ _) as [end_idx bracket_count]. simpl in Hs.
    by rewrite Hs.
Qed.

(** One fragment that contributes nothing takes nothing away from the
    others. *)
Lemma isolation (response_content : string) (before after : list (string * string))
    (bad : string * string) (parsed_before parsed_after : list plan_tuple) :
  step_fragments response_content = before ++ bad :: after →
  step_outcome json_loads bad = None →
  Forall2 (λ fragment step, step_outcome json_loads fragment = Some step)
    before parsed_before →
  Forall2 (λ fragment step, step_outcome json_loads fragment = Some step)
    after parsed_after →
  parse_llm_plan_response json_loads response_content = parsed_before ++ parsed_after.
Proof.
  intros Hf Hbad Hb Ha.
  assert (∀ fs ps,
            Forall2 (λ fragment step, step_outcome json_loads fragment = Some step) fs ps →
            omap (step_outcome json_loads) fs = ps) as Hall.
  { induction 1 as [|f p fs ps Hfp _ IH]; [done|]. simpl. rewrite Hfp. f_equal. exact IH. }
  assert (omap (step_outcome json_loads) (bad :: after)
          = omap (step_outcome json_loads) after) as Hskip.
  { simpl. by rewrite Hbad. }
  by rewrite parse_llm_plan_response_outcomes, Hf, omap_app, Hskip,
       (Hall _ _ Hb), (Hall _ _ Ha).
Qed.

End plan.

(** C6.  [parse_llm_plan_response] is defined on every text and for every
    behaviour of the decoder, exceptions included: what it returns is, in
    source order, the contribution of each step fragment taken alone.  A
    fragment with no opening bracket after the tool name, or whose brackets
    never close, contributes nothing.  So when one fragment of a response
    contributes nothing and the others are well formed, the result is the
    steps of the others, all of them, in source order. *)
Theorem parse_llm_plan_response_isolates (json_loads : string → res value)
    (response_content : string) :
  parse_llm_plan_response json_loads response_content
    = omap (step_outcome json_loads) (step_fragments response_content)
  ∧ (∀ plan_description step_text,
       no_bracket step_text ∨ unbalanced step_text →
       step_outcome json_loads (plan_description, step_text) = None)
  ∧ (∀ (before after : list (string * string)) (bad : string * string)
       (parsed_before parsed_after : list plan_tuple),
       step_fragments response_content = before ++ bad :: after →
       step_outcome json_loads bad = None →
       Forall2 (λ fragment step, step_outcome json_loads fragment = Some step)
         before parsed_before →
       Forall2 (λ fragment step, step_outcome json_loads fragment = Some step)
         after parsed_after →
       parse_llm_plan_response json_loads response_content
         = parsed_before ++ parsed_after).
Proof.
  split; [apply parse_llm_plan_response_outcomes|].
  split; [apply malformed_step_outcome|apply isolation].
Qed.

Lemma parse_llm_plan_response_isolates_witness :
  parse_llm_plan_response Json.loads response1
  = [("Start the quiz", "E1", "bulk_set_state", [("current_topic_id", VInt 2)]);
     ("Start the quiz", "E3", "populate_flashcards", [("topic_id", VInt 2)])].
Proof.
  apply (proj2 (proj2 (parse_llm_plan_response_isolates Json.loads response1))
           [("Start the quiz", "1 = bulk_set_state[current_topic_id=2]")]
           [("Start the quiz", "3 = populate_flashcards[topic_id=2]")]
           ("Start the quiz", "2 = bulk_set_state[hard_flashcards=[1, 2")
           [("Start the quiz", "E1", "bulk_set_state", [("current_topic_id", VInt 2)])]
           [("Start the quiz", "E3", "populate_flashcards", [("topic_id", VInt 2)])]).
  - vm_compute. reflexivity.
  - apply (proj1 (proj2 (parse_llm_plan_response_isolates Json.loads response1))).
    right. exists "2 ", " bulk_set_state[hard_flashcards=[1, 2".
    split; vm_compute; reflexivity.
  - repeat constructor.
  - repeat constructor.
Defined.

End Parsing.

(* ===================================================================== *)
(** * The executor: [execute_plan] *)
(* ===================================================================== *)

Module Execute.
Import StateUtils QuizAgent Terms Samples.

Section execute.
Variable get_flashcards_by_topic_id : value → list flashcard_row.

Lemma execute_steps_app (before after : list value) (current_state : gmap string value) :
  execute_steps get_flashcards_by_topic_id (before ++ after) current_state
  = (current_state ← execute_steps get_flashcards_by_topic_id before current_state;
     execute_steps get_flashcards_by_topic_id after current_state).
Proof.
  revert current_state. induction before as [|step before IH]; intros st; simpl; [done|].
  destruct (execute_step get_flashcards_by_topic_id st step) as [st'|e]; simpl; [|done].
  apply IH.
Qed.

Lemma execute_steps_cons (step : value) (rest : list value)
    (current_state : gmap string value) :
  execute_steps get_flashcards_by_topic_id (step :: rest) current_state
  = (current_state ← execute_step get_flashcards_by_topic_id current_state step;
     execute_steps get_flashcards_by_topic_id rest current_state).
Proof. reflexivity. Qed.

(** With a plan stored by the planner node, the executor runs its steps in
    order on the state. *)
Lemma execute_plan_with_plan (state : gmap string value) (plan : list plan_tuple) :
  execute_plan get_flashcards_by_topic_id (with_plan state plan)
  = execute_steps get_flashcards_by_topic_id (step_value <$> plan) (with_plan state plan).
Proof.
  unfold execute_plan, with_plan, dict_get. rewrite lookup_insert_eq. simpl.
  unfold plan_value, getitem_str, dict_item. by simplify_map_eq.
Qed.

Lemma step_value_tool (plan_desc step_id tool_name : string)
    (tool_input : list (string * value)) :
  getitem_str (step_value (plan_desc, step_id, tool_name, tool_input)) "tool"
    = Ok (VStr tool_name)
  ∧ getitem_str (step_value (plan_desc, step_id, tool_name, tool_input)) "tool_input"
    = Ok (VList ((λ kv, VTuple [VStr kv.1; kv.2]) <$> tool_input)).
Proof. unfold step_value, getitem_str, dict_item. by simplify_map_eq. Qed.

(** A [populate_flashcards] step with at least one argument. *)
Lemma execute_step_populate (current_state : gmap string value)
    (plan_desc step_id key : string) (topic_id : value)
    (rest : list (string * value)) :
  execute_step get_flashcards_by_topic_id current_state
    (step_value (plan_desc, step_id, "populate_flashcards", (key, topic_id) :: rest))
  = Ok (fold_queue current_state
          (populate_flashcards get_flashcards_by_topic_id topic_id)).
Proof.
  unfold execute_step.
  destruct (step_value_tool plan_desc step_id "populate_flashcards"
              ((key, topic_id) :: rest)) as [-> ->].
  simpl. by destruct (populate_flashcards _ _).
Qed.

(** A [populate_flashcards] step without arguments. *)
Lemma execute_step_populate_nil (current_state : gmap string value)
    (plan_desc step_id : string) :
  execute_step get_flashcards_by_topic_id current_state
    (step_value (plan_desc, step_id, "populate_flashcards", []))
  = Raise IndexError.
Proof.
  unfold execute_step.
  by destruct (step_value_tool plan_desc step_id "populate_flashcards" []) as [-> ->].
Qed.

End execute.

(** C3, as stated, fails: when the populator returns the empty sequence the
    field is left as it was.  With a repository that has no flashcard, a
    queue holding one flashcard and the plan
    [populate_flashcards[topic_id=99]], the queue after execution still
    holds that flashcard; it is not the empty sequence. *)
Lemma empty_queue_does_not_replace :
  let plan := [("Next topic", "E1", "populate_flashcards", [("topic_id", VInt 99)])] in
  let outcome := execute_plan (λ _, []) (with_plan state4 plan) in
  outcome = Ok (with_plan state4 plan)
  ∧ (state ← outcome; Ok (state !! "flashcard_states"))
    = Ok (Some (VList [VDict {[ "id" := VInt 1; "status" := VStr "active" ]}]))
  ∧ (state ← outcome; Ok (state !! "flashcard_states")) ≠ Ok (Some (VList [])).
Proof.
  repeat split; [vm_compute; reflexivity ..| vm_compute; discriminate].
Qed.

(** C3, amended.  For a step of the current plan whose tool is
    [populate_flashcards] and whose tool input is not empty, reached with
    working state [current_state]: the executor takes the value of the
    first pair of the tool input as topic identifier, calls
    [populate_flashcards] with it and, when the queue returned is not
    empty, replaces the [flashcard_states] field of the working state
    wholly by it; when the queue returned is empty the working state is
    left as it is.  Execution goes on with the steps that follow. *)
Theorem execute_plan_populate_flashcards
    (get_flashcards_by_topic_id : value → list flashcard_row)
    (state current_state : gmap string value) (before after : list plan_tuple)
    (plan_desc step_id key : string) (topic_id : value)
    (rest : list (string * value)) :
  let step := (plan_desc, step_id, "populate_flashcards", (key, topic_id) :: rest) in
  let plan := before ++ step :: after in
  let queue := populate_flashcards get_flashcards_by_topic_id topic_id in
  execute_steps get_flashcards_by_topic_id (step_value <$> before) (with_plan state plan)
    = Ok current_state →
  execute_plan get_flashcards_by_topic_id (with_plan state plan)
  = execute_steps get_flashcards_by_topic_id (step_value <$> after)
      (match queue with
       | [] => current_state
       | _ :: _ => <["flashcard_states" := VList (VDict <$> queue)]> current_state
       end).
Proof.
  intros step plan queue Hbefore. subst step plan queue.
  rewrite execute_plan_with_plan, fmap_app, execute_steps_app, Hbefore.
  rewrite PyFacts.bind_Ok, fmap_cons, execute_steps_cons, execute_step_populate.
  rewrite PyFacts.bind_Ok. unfold fold_queue. by destruct (populate_flashcards _ _).
Qed.

Lemma execute_plan_populate_flashcards_witness :
  execute_plan repository1
    (with_plan state4
       [("Start", "E1", "populate_flashcards", [("topic_id", VInt 2)])])
  = Ok (<["flashcard_states" :=
            VList (VDict <$> populate_flashcards repository1 (VInt 2))]>
          (with_plan state4
             [("Start", "E1", "populate_flashcards", [("topic_id", VInt 2)])])).
Proof.
  apply (execute_plan_populate_flashcards repository1 state4
           (with_plan state4
              [("Start", "E1", "populate_flashcards", [("topic_id", VInt 2)])])
           [] [] "Start" "E1" "topic_id" (VInt 2) []).
  reflexivity.
Defined.

(** C10.  A [populate_flashcards] step whose tool input is empty makes
    [execute_plan] raise [IndexError]: the step is not skipped.  And when
    the tool input is not empty, the topic identifier given to
    [populate_flashcards] is the value of its first pair, whatever the key
    of that pair and whatever follows it. *)
Theorem execute_plan_populate_first_pair :
  (∀ (get_flashcards_by_topic_id : value → list flashcard_row)
     (state : gmap string value) (plan_desc step_id : string) (after : list plan_tuple),
     execute_plan get_flashcards_by_topic_id
       (with_plan state ((plan_desc, step_id, "populate_flashcards", []) :: after))
     = Raise IndexError)
  ∧ (∀ (get_flashcards_by_topic_id : value → list flashcard_row)
       (current_state : gmap string value) (plan_desc step_id key : string)
       (topic_id : value) (rest : list (string * value)),
       execute_step get_flashcards_by_topic_id current_state
         (step_value (plan_desc, step_id, "populate_flashcards", (key, topic_id) :: rest))
       = Ok (fold_queue current_state
               (populate_flashcards get_flashcards_by_topic_id topic_id))).
Proof.
  split.
  - intros repo state plan_desc step_id after.
    by rewrite execute_plan_with_plan, fmap_cons, execute_steps_cons,
         execute_step_populate_nil.
  - apply execute_step_populate.
Qed.

End Execute.

(* ===================================================================== *)
(** * The evaluator node: [evaluate] *)
(* ===================================================================== *)

Module Evaluate.
Import StateUtils QuizAgent Terms Samples.

Lemma find_active_first_active (cards : list value) (i : nat) :
  Forall flashcard_state cards →
  find_active cards i = Ok ((λ hit, (i + hit.1)%nat) <$> first_active cards).
Proof.
  unfold first_active. intros Hc. revert i.
  induction Hc as [|card cards (d & status & q & mc & answers & -> & Hs & _) _ IH];
    intros i; [done|].
  simpl. unfold getitem_str, dict_item, dict_get. rewrite Hs. simpl.
  destruct (py_eq status (VStr "active")) eqn:Hact.
  - rewrite decide_True by done. simpl. do 2 f_equal. lia.
  - rewrite decide_False by done. rewrite IH.
    destruct (list_find _ cards) as [[j c]|]; simpl; [|done]. do 2 f_equal. lia.
Qed.

(** Recording an evaluation can only fail on a queue or a score of the
    wrong type. *)
Lemma record_evaluation_raises (current_state : gmap string value)
    (flashcard_states : value) (active_index : nat)
    (active_flashcard : gmap string value) (evaluation_result : EvaluationResult)
    (e : exn) :
  record_evaluation current_state flashcard_states active_index active_flashcard
    evaluation_result = Raise e →
  e = TypeError ∨ e = AttributeError.
Proof.
  unfold record_evaluation, bump, add_one, mbind, res_bind, Py.bind.
  intros He. repeat (case_match; simplify_eq/=; auto).
Qed.

Section evaluate.
Variable evaluation_chain_invoke : evaluator_input → res EvaluationResult.

(** What [evaluate] does on a well-formed queue, by the first active entry. *)
Lemma evaluate_cases (state : gmap string value) (cards : list value) :
  state !! "flashcard_states" = Some (VList cards) →
  Forall flashcard_state cards →
  match first_active cards with
  | None => evaluate evaluation_chain_invoke state = (Raise no_active_flashcard, [])
  | Some (i, card) =>
      match answers_of card with
      | [] => evaluate evaluation_chain_invoke state = (Raise no_user_answer, [])
      | answer :: answers =>
          ∃ input,
            (evaluate evaluation_chain_invoke state).2 = [input]
            ∧ Ok (question input) = getitem_str card "question"
            ∧ Ok (marking_criteria input) = getitem_str card "marking_criteria"
            ∧ Some (student_answer input) = last (answer :: answers)
            ∧ ((evaluate evaluation_chain_invoke state).1 = Raise no_active_flashcard
               → evaluation_chain_invoke input = Raise no_active_flashcard)
            ∧ ((evaluate evaluation_chain_invoke state).1 = Raise no_user_answer
               → evaluation_chain_invoke input = Raise no_user_answer)
      end
  end.
Proof.
  intros Hfs Hc. unfold evaluate, dict_item. rewrite Hfs. simpl.
  rewrite (find_active_first_active _ _ Hc).
  destruct (first_active cards) as [[i card]|] eqn:Hfa; simpl; [|done].
  apply list_find_Some in Hfa as (Hi & _ & _).
  rewrite Hi. simpl.
  pose proof (proj1 (Forall_lookup _ _) Hc i card Hi)
    as (d & status & q & mc & answers & -> & Hs & Ha & Hq & Hm).
  unfold getitem_str, dict_item. simpl. rewrite Ha, Hq, Hm. simpl.
  destruct answers as [|answer answers].
  { by rewrite bool_decide_true. }
  rewrite bool_decide_false by done. simpl negb. cbv iota.
  destruct (last (answer :: answers)) as [sa|] eqn:Hl;
    [|by apply last_None in Hl].
  simpl. eexists. split; [done|]. simpl. repeat split.
  - destruct (evaluation_chain_invoke _) as [r|e]; [|simpl; by intros [= ->]].
    rewrite PyFacts.bind_Ok. intros He.
    apply record_evaluation_raises in He as [He|He]; discriminate He.
  - destruct (evaluation_chain_invoke _) as [r|e]; [|simpl; by intros [= ->]].
    rewrite PyFacts.bind_Ok. intros He.
    apply record_evaluation_raises in He as [He|He]; discriminate He.
Qed.

End evaluate.

(** C9.  On a state whose flashcard queue is well formed, [evaluate] fails
    by its own checks in two cases, and in both without having invoked the
    evaluator: when no entry is active it raises [ValueError] ("No active
    flashcard found in state"); when the first active entry has no user
    answer it raises [ValueError] ("No user answer found for active
    flashcard").  In every other case the evaluator is invoked, once, on
    the question, the marking criteria and the last answer of the first
    active entry, and neither of the two errors comes out of the call
    unless the evaluator itself raised it. *)
Theorem evaluate_precondition_failures
    (evaluation_chain_invoke : evaluator_input → res EvaluationResult)
    (state : gmap string value) (cards : list value) :
  state !! "flashcard_states" = Some (VList cards) →
  Forall flashcard_state cards →
  (Forall (λ card, is_active card = false) cards →
   evaluate evaluation_chain_invoke state = (Raise no_active_flashcard, []))
  ∧ (∀ i card,
       first_active cards = Some (i, card) → answers_of card = [] →
       evaluate evaluation_chain_invoke state = (Raise no_user_answer, []))
  ∧ (∀ i card,
       first_active cards = Some (i, card) → answers_of card ≠ [] →
       ∃ input,
         (evaluate evaluation_chain_invoke state).2 = [input]
         ∧ Ok (question input) = getitem_str card "question"
         ∧ Ok (marking_criteria input) = getitem_str card "marking_criteria"
         ∧ Some (student_answer input) = last (answers_of card)
         ∧ ((evaluate evaluation_chain_invoke state).1 = Raise no_active_flashcard
            → evaluation_chain_invoke input = Raise no_active_flashcard)
         ∧ ((evaluate evaluation_chain_invoke state).1 = Raise no_user_answer
            → evaluation_chain_invoke input = Raise no_user_answer)).
Proof.
  intros Hfs Hc.
  pose proof (evaluate_cases evaluation_chain_invoke state cards Hfs Hc) as Hcases.
  repeat split.
  - intros Hnone.
    assert (first_active cards = None) as Hfa.
    { apply list_find_None. eapply Forall_impl; [exact Hnone|].
      intros card Hcard. simpl in *. by rewrite Hcard. }
    by rewrite Hfa in Hcases.
  - intros i card Hfa Ha. rewrite Hfa in Hcases. by rewrite Ha in Hcases.
  - intros i card Hfa Ha. rewrite Hfa in Hcases.
    destruct (answers_of card) as [|answer answers]; [done|]. exact Hcases.
Qed.

Lemma evaluate_precondition_failures_witness :
  evaluate lenient state5 = (Raise no_active_flashcard, []).
Proof.
  refine (proj1 (evaluate_precondition_failures lenient state5 _ eq_refl _) _).
  - repeat constructor. do 5 eexists. repeat split; reflexivity.
  - repeat constructor.
Defined.

End Evaluate.

(* ===================================================================== *)
(** * The executor on reconciler steps, and the router *)
(* ===================================================================== *)

Module Pipeline.
Import StateUtils QuizAgent PyFacts Terms Samples.

(** [v == "text"] holds for that very string only. *)
Lemma py_eq_str (v : value) (s : string) : py_eq v (VStr s) = true ↔ v = VStr s.
Proof.
  destruct v; simpl; try (split; [done|discriminate]).
  rewrite bool_decide_eq_true. split; [by intros ->|by intros [= ->]].
Qed.

(** The tool input stored by the planner node is read back as it was. *)
Lemma as_updates_tool_input (tool_input : list (string * value)) :
  as_updates ((λ kv, VTuple [VStr kv.1; kv.2]) <$> tool_input) = Ok tool_input.
Proof.
  induction tool_input as [|[k v] rest IH]; [done|].
  rewrite fmap_cons. simpl. simpl in IH. by rewrite IH.
Qed.

(** [d.update(pairs)]: a key no pair names keeps its value; for a key that
    is named, the last pair wins. *)
Lemma dict_update_other (d : gmap string value) (pairs : list (string * value))
    (k : string) :
  k ∉ pairs.*1 → dict_update d pairs !! k = d !! k.
Proof.
  unfold dict_update. revert d.
  induction pairs as [|[k' v] pairs IH]; intros d Hk; [done|].
  simpl. rewrite fmap_cons in Hk. apply not_elem_of_cons in Hk as [Hne Hk].
  rewrite (IH _ Hk). simpl in Hne. by rewrite lookup_insert_ne.
Qed.

Lemma dict_update_last (d : gmap string value) (before after : list (string * value))
    (k : string) (v : value) :
  k ∉ after.*1 → dict_update d (before ++ (k, v) :: after) !! k = Some v.
Proof.
  intros Hk. unfold dict_update. rewrite foldl_app. simpl.
  fold (dict_update (<[k:=v]> (foldl (λ acc kv, <[kv.1:=kv.2]> acc) d before)) after).
  rewrite (dict_update_other _ _ _ Hk). apply lookup_insert_eq.
Qed.

Section executor.
Variable get_flashcards_by_topic_id : value → list flashcard_row.

(** A [bulk_set_state] step folds what the reconciler returns into the
    working state. *)
Lemma execute_step_bulk (current_state : gmap string value)
    (plan_desc step_id : string) (updates : list (string * value)) :
  execute_step get_flashcards_by_topic_id current_state
    (step_value (plan_desc, step_id, "bulk_set_state", updates))
  = (updated_values ← bulk_set_state current_state updates;
     Ok (dict_update current_state updated_values)).
Proof.
  unfold execute_step.
  destruct (Execute.step_value_tool plan_desc step_id "bulk_set_state" updates)
    as [-> ->].
  simpl. rewrite as_updates_tool_input. simpl.
  destruct (bulk_set_state current_state updates) as [out|e]; simpl; [|done].
  by case_bool_decide; subst.
Qed.

(** A step whose tool is neither of the two known ones. *)
Lemma execute_step_unknown (current_state : gmap string value)
    (plan_desc step_id tool_name : string) (tool_input : list (string * value)) :
  tool_name ≠ "bulk_set_state" → tool_name ≠ "populate_flashcards" →
  execute_step get_flashcards_by_topic_id current_state
    (step_value (plan_desc, step_id, tool_name, tool_input))
  = Ok current_state.
Proof.
  intros Hb Hp. unfold execute_step.
  destruct (Execute.step_value_tool plan_desc step_id tool_name tool_input)
    as [-> ->].
  simpl. by rewrite !bool_decide_false by congruence.
Qed.

(** A step of the reconciler cannot fail otherwise than with [TypeError]. *)
Lemma bulk_set_state_step_raise (state : gmap string value)
    (acc : list (string * value)) (field_name : string) (v : value) (e : exn) :
  bulk_set_state_step state acc field_name v = Raise e → e = TypeError.
Proof.
  unfold bulk_set_state_step.
  destruct (Text.contains "." field_name) eqn:Hc.
  - destruct (TextFacts.contains_split1 _ _ Hc) as (parent & child & ->).
    repeat (case_match; simpl; try done).
    destruct v0; simpl; try done; by intros [= <-].
  - repeat (case_match; simpl; try done).
Qed.

Lemma bulk_set_state_raise (state : gmap string value)
    (updates : list (string * value)) (e : exn) :
  bulk_set_state state updates = Raise e → e = TypeError.
Proof.
  unfold bulk_set_state. generalize (@nil (string * value)).
  induction updates as [|[f v] updates IH]; intros acc; simpl; [done|].
  destruct (bulk_set_state_step state acc f v) as [acc'|e'] eqn:Hs; simpl.
  - apply IH.
  - intros [= <-]. by eapply bulk_set_state_step_raise.
Qed.

(** What a turn of the reconciler emits is at most one pair, for the
    top-level field of the update. *)
Lemma bulk_set_state_step_key (state : gmap string value)
    (field_name : string) (v : value) (out : list (string * value)) :
  bulk_set_state_step state [] field_name v = Ok out →
  out = [] ∨ ∃ merged, out = [(top_level field_name, merged)].
Proof.
  unfold bulk_set_state_step, top_level.
  destruct (Text.contains "." field_name) eqn:Hc.
  - destruct (TextFacts.contains_split1 _ _ Hc) as (parent & child & ->).
    repeat (case_match; simpl; try done); try (intros [= <-]; eauto).
    destruct (dict_display _ _); simpl; [|done]. intros [= <-]; eauto.
  - assert (Text.split1 "." field_name = [field_name]) as ->.
    { unfold Text.split1.
      destruct (Text.cut "." field_name) as [[a b]|] eqn:Hcut; [|done].
      exfalso. revert a b Hcut Hc. clear.
      induction field_name as [|c s IH]; intros a b; simpl; [done|].
      case_bool_decide; [done|].
      destruct (Text.cut "." s) as [[a' b']|] eqn:Hs; [|done].
      intros _ Hc. by eapply IH. }
    repeat (case_match; simpl; try done); intros [= <-]; eauto.
Qed.

Lemma bulk_set_state_keys (state : gmap string value)
    (updates out : list (string * value)) :
  bulk_set_state state updates = Ok out →
  out.*1 `sublist_of` (top_level <$> updates.*1).
Proof.
  revert out. induction updates as [|[f v] updates IH]; intros out.
  - by intros [= <-].
  - rewrite Reconcile.bulk_set_state_cons.
    destruct (bulk_set_state_step state [] f v) as [a|] eqn:Ha; simpl; [|done].
    destruct (bulk_set_state state updates) as [b|]; simpl; [|done].
    intros [= <-]. specialize (IH b eq_refl).
    apply bulk_set_state_step_key in Ha as [->|[merged ->]]; simpl.
    + by apply sublist_cons.
    + by apply sublist_skip.
Qed.

End executor.


(** X2.  A [bulk_set_state] step of a plan replaces, in the working state, the
    fields the reconciler emitted, the last pair winning for a field
    emitted twice, and touches no other field: a field that is the
    top-level field of none of the step's updates is after the step what it
    was before. *)
Theorem execute_step_bulk_set_state_frame
    (get_flashcards_by_topic_id : value → list flashcard_row)
    (current_state : gmap string value) (plan_desc step_id : string)
    (updates merged_updates : list (string * value)) :
  bulk_set_state current_state updates = Ok merged_updates →
  execute_step get_flashcards_by_topic_id current_state
    (step_value (plan_desc, step_id, "bulk_set_state", updates))
  = Ok (dict_update current_state merged_updates)
  ∧ (∀ field, field ∉ top_level <$> updates.*1 →
       dict_update current_state merged_updates !! field = current_state !! field)
  ∧ (∀ before after field v,
       merged_updates = before ++ (field, v) :: after → field ∉ after.*1 →
       dict_update current_state merged_updates !! field = Some v).
Proof.
  intros Hb. split; [by rewrite execute_step_bulk, Hb|]. split.
  - intros field Hf. apply dict_update_other. intros Hin. apply Hf.
    eapply elem_of_sublist; [exact Hin|]. by eapply bulk_set_state_keys.
  - intros before after field v -> Hf. by apply dict_update_last.
Qed.

Lemma execute_step_bulk_set_state_frame_witness :
  execute_step repository1 state1
    (step_value ("Ask", "E1", "bulk_set_state",
                 [("quiz_state.progress", VInt 1); ("score", VInt 0)]))
  = Ok (dict_update state1
          [("quiz_state",
            VDict {[ "state" := VStr "idle"; "progress" := VInt 1 ]});
           ("score", VInt 0)]).
Proof.
  refine (proj1 (execute_step_bulk_set_state_frame repository1 state1 "Ask" "E1"
                   [("quiz_state.progress", VInt 1); ("score", VInt 0)] _ _)).
  vm_compute. reflexivity.
Defined.

(** X3.  A plan made of steps whose tools the executor does not know is executed
    without effect and without error, whatever the tool inputs: the state
    comes back as it was. *)
Theorem execute_plan_unknown_tools
    (get_flashcards_by_topic_id : value → list flashcard_row)
    (state : gmap string value) (plan : list plan_tuple) :
  Forall unknown_tool plan →
  execute_plan get_flashcards_by_topic_id (with_plan state plan)
  = Ok (with_plan state plan).
Proof.
  intros Hplan. rewrite Execute.execute_plan_with_plan.
  generalize (with_plan state plan) as st.
  induction Hplan as [|[[[d id] tool] input] plan [Hb Hp] _ IH]; intros st; [done|].
  rewrite fmap_cons, Execute.execute_steps_cons.
  rewrite (execute_step_unknown _ _ _ _ _ _ Hb Hp). apply IH.
Qed.

Lemma execute_plan_unknown_tools_witness :
  execute_plan repository1
    (with_plan state1 [("Chat", "E1", "send_message", [("text", VStr "hi")]);
                       ("Chat", "E2", "", [])])
  = Ok (with_plan state1 [("Chat", "E1", "send_message", [("text", VStr "hi")]);
                          ("Chat", "E2", "", [])]).
Proof.
  apply execute_plan_unknown_tools.
  repeat constructor; discriminate.
Defined.

(** X4.  Two mappings offered for one field: in one [bulk_set_state] step the
    second is merged onto the state the step started from and replaces the
    result of the first, whose keys are lost; in two successive steps the
    second is merged onto the result of the first. *)
Theorem bulk_set_state_within_and_across_steps
    (get_flashcards_by_topic_id : value → list flashcard_row)
    (state : gmap string value) (field_name : string)
    (first second : gmap string value) :
  Text.contains "." field_name = false →
  let current := mapping_of state field_name in
  let one_step :=
    execute_step get_flashcards_by_topic_id state
      (step_value (bulk_step [(field_name, VDict first); (field_name, VDict second)])) in
  let two_steps :=
    after_first ← execute_step get_flashcards_by_topic_id state
                    (step_value (bulk_step [(field_name, VDict first)]));
    execute_step get_flashcards_by_topic_id after_first
      (step_value (bulk_step [(field_name, VDict second)])) in
  (result ← one_step; Ok (result !! field_name))
    = Ok (Some (VDict (dict_merge current second)))
  ∧ (result ← two_steps; Ok (result !! field_name))
    = Ok (Some (VDict (dict_merge (dict_merge current first) second))).
Proof.
  intros Hf current one_step two_steps.
  subst one_step two_steps. unfold bulk_step.
  assert (∀ st m, bulk_set_state st [(field_name, VDict m)]
                  = Ok [(field_name, VDict (dict_merge (mapping_of st field_name) m))])
    as Hone.
  { intros st m. rewrite Reconcile.bulk_set_state_cons.
    by rewrite (Reconcile.step_top_level_mapping _ _ _ Hf). }
  split.
  - rewrite execute_step_bulk, Reconcile.bulk_set_state_cons.
    rewrite (Reconcile.step_top_level_mapping _ _ _ Hf), Hone, !bind_Ok.
    f_equal.
    apply (dict_update_last state [(field_name, VDict (dict_merge current first))]
             [] field_name).
    apply not_elem_of_nil.
  - rewrite execute_step_bulk, Hone, !bind_Ok, execute_step_bulk, Hone, !bind_Ok.
    f_equal. unfold dict_update, mapping_of. simpl. by rewrite !lookup_insert_eq.
Qed.

Lemma bulk_set_state_within_and_across_steps_witness :
  (result ← execute_step repository1 state1
              (step_value (bulk_step [("quiz_state", VDict {[ "topic" := VInt 2 ]});
                                      ("quiz_state", VDict {[ "progress" := VInt 1 ]})]));
   Ok (result !! "quiz_state"))
  = Ok (Some (VDict {[ "state" := VStr "idle"; "progress" := VInt 1 ]})).
Proof.
  refine (proj1 (bulk_set_state_within_and_across_steps repository1 state1
                   "quiz_state" {[ "topic" := VInt 2 ]} {[ "progress" := VInt 1 ]} _)).
  reflexivity.
Defined.

(** X5.  A step of the plan on which the reconciler raises aborts the plan:
    [execute_plan] raises [TypeError] and returns no state, so the effects
    of the steps before it are lost with those of the steps after it. *)
Theorem execute_plan_aborts_on_unguarded_merge
    (get_flashcards_by_topic_id : value → list flashcard_row)
    (state current_state : gmap string value) (before after : list plan_tuple)
    (plan_desc step_id : string) (updates : list (string * value)) :
  let plan := before ++ (plan_desc, step_id, "bulk_set_state", updates) :: after in
  execute_steps get_flashcards_by_topic_id (step_value <$> before) (with_plan state plan)
    = Ok current_state →
  Exists (unguarded_merge current_state) updates →
  execute_plan get_flashcards_by_topic_id (with_plan state plan) = Raise TypeError.
Proof.
  intros plan Hbefore Hbad. subst plan.
  rewrite Execute.execute_plan_with_plan, fmap_app, Execute.execute_steps_app, Hbefore.
  rewrite bind_Ok, fmap_cons, Execute.execute_steps_cons, execute_step_bulk.
  apply Reconcile.bulk_set_state_raises in Hbad.
  destruct (bulk_set_state current_state updates) as [out|e] eqn:Hb; [done|].
  by rewrite (bulk_set_state_raise _ _ _ Hb).
Qed.

Lemma execute_plan_aborts_on_unguarded_merge_witness :
  execute_plan repository1
    (with_plan state1
       [("Ask", "E1", "bulk_set_state", [("score", VInt 1)]);
        ("Ask", "E2", "bulk_set_state",
         [("quiz_state.progress", VDict {[ "step" := VInt 1 ]})])])
  = Raise TypeError.
Proof.
  eapply (execute_plan_aborts_on_unguarded_merge repository1 state1 _
            [("Ask", "E1", "bulk_set_state", [("score", VInt 1)])] []).
  - vm_compute. reflexivity.
  - apply Exists_cons_hd.
    exists "quiz_state", "progress",
      {[ "state" := VStr "idle"; "progress" := VInt 0 ]}, (VInt 0).
    repeat split; vm_compute; reflexivity.
Defined.

(** X6.  The router sends to the evaluator exactly the states whose
    [quiz_state] is the text [awaiting_evaluation] or a mapping whose
    [state] entry is that text; every other state, a state without
    [quiz_state] among them, goes to the responder. *)
Theorem route_to_evaluator_iff (state : gmap string value) :
  (route_to_evaluation_or_response state = "evaluator"
   ↔ state !! "quiz_state" = Some (VStr "awaiting_evaluation")
     ∨ ∃ d, state !! "quiz_state" = Some (VDict d)
            ∧ d !! "state" = Some (VStr "awaiting_evaluation"))
  ∧ (route_to_evaluation_or_response state ≠ "evaluator"
     → route_to_evaluation_or_response state = "responder").
Proof.
  unfold route_to_evaluation_or_response, dict_get. split.
  - destruct (state !! "quiz_state") as [[| | | |s| | |d]|] eqn:Hq; simpl;
      try (split; [done|]; intros [[=]|(d' & [=] & _)]).
    + case_bool_decide as Hs.
      * subst. split; [auto|done].
      * split; [done|]. intros [[= ->]|(d' & [=] & _)]. done.
    + destruct (py_eq (default VNone (d !! "state")) (VStr "awaiting_evaluation"))
        eqn:He.
      * apply py_eq_str in He. split; [|done]. intros _. right. exists d.
        split; [done|]. by destruct (d !! "state"); simplify_eq/=.
      * split; [done|]. intros [[=]|(d' & [= <-] & Hd)].
        rewrite Hd in He. by vm_compute in He.
  - repeat case_match; done.
Qed.

(** X7.  From the executor to the router.  A [bulk_set_state] step that offers
    for [quiz_state] a mapping whose [state] is [awaiting_evaluation] leaves
    a state that is routed to the evaluator, whatever the state before.
    The dotted form, [quiz_state.state] set to that text, does so when
    [quiz_state] is absent or a mapping; when [quiz_state] holds anything
    else the update is dropped and the state is unchanged. *)
Theorem quiz_state_update_routes_to_evaluator
    (get_flashcards_by_topic_id : value → list flashcard_row)
    (state : gmap string value) :
  (∀ incoming : gmap string value,
     incoming !! "state" = Some (VStr "awaiting_evaluation") →
     (after ← execute_step get_flashcards_by_topic_id state
                (step_value (bulk_step [("quiz_state", VDict incoming)]));
      Ok (route_to_evaluation_or_response after)) = Ok "evaluator")
  ∧ let dotted :=
      step_value (bulk_step [("quiz_state.state", VStr "awaiting_evaluation")]) in
    match state !! "quiz_state" with
    | None | Some (VDict _) =>
        (after ← execute_step get_flashcards_by_topic_id state dotted;
         Ok (route_to_evaluation_or_response after)) = Ok "evaluator"
    | Some _ => execute_step get_flashcards_by_topic_id state dotted = Ok state
    end.
Proof.
  split.
  - intros incoming Hi. unfold bulk_step.
    rewrite execute_step_bulk, Reconcile.bulk_set_state_cons.
    rewrite (Reconcile.step_top_level_mapping state "quiz_state" incoming eq_refl).
    change (bulk_set_state state []) with (@Ok (list (string * value)) []).
    rewrite !bind_Ok. f_equal.
    unfold route_to_evaluation_or_response, dict_update, dict_get. simpl.
    rewrite lookup_insert_eq. simpl.
    by rewrite dict_merge_lookup, Hi.
  - intros dotted. subst dotted. unfold bulk_step.
    rewrite execute_step_bulk, Reconcile.bulk_set_state_cons.
    rewrite (Reconcile.step_dotted state "quiz_state" "state" _ eq_refl).
    change (bulk_set_state state []) with (@Ok (list (string * value)) []).
    unfold dict_get.
    destruct (state !! "quiz_state") as [[]|]; simpl; try done.
    all: f_equal; unfold route_to_evaluation_or_response, dict_update, dict_get; simpl.
    all: by rewrite lookup_insert_eq; simpl; rewrite lookup_insert_eq.
Qed.

(** X8.  From the executor to the evaluator.  After a [populate_flashcards] step
    for a topic that has flashcards, the queue is new: its first entry is
    active and has no answer.  Evaluating that state raises the second
    precondition failure, without a call to the evaluator. *)
Theorem evaluate_after_populate_flashcards
    (get_flashcards_by_topic_id : value → list flashcard_row)
    (evaluation_chain_invoke : evaluator_input → res EvaluationResult)
    (state : gmap string value) (plan_desc step_id key : string)
    (topic_id : value) (rest : list (string * value)) :
  get_flashcards_by_topic_id topic_id ≠ [] →
  ∃ after,
    execute_step get_flashcards_by_topic_id state
      (step_value (plan_desc, step_id, "populate_flashcards", (key, topic_id) :: rest))
    = Ok after
    ∧ evaluate evaluation_chain_invoke after = (Raise no_user_answer, []).
Proof.
  intros Hrows. rewrite Execute.execute_step_populate.
  unfold fold_queue, populate_flashcards.
  destruct (get_flashcards_by_topic_id topic_id) as [|row rows]; [done|].
  simpl. eexists. split; [done|].
  set (first := <["status" := VStr "active"]> (new_flashcard_state row)).
  set (cards := VDict first :: (VDict <$> (new_flashcard_state <$> rows))).
  assert (Forall Terms.flashcard_state cards) as Hcards.
  { apply Forall_cons. split.
    - exists first, (VStr "active"), (row_question row), (row_marking_criteria row), [].
      unfold first, new_flashcard_state. repeat split; by simplify_map_eq.
    - apply Forall_fmap, Forall_fmap, Forall_forall. intros r _.
      exists (new_flashcard_state r), (VStr "queued"), (row_question r),
        (row_marking_criteria r), [].
      unfold new_flashcard_state. repeat split; by simplify_map_eq. }
  pose proof (Evaluate.evaluate_cases evaluation_chain_invoke
                (<["flashcard_states" := VList cards]> state) cards
                (lookup_insert_eq _ _ _) Hcards) as Hcases.
  assert (first_active cards = Some (0%nat, VDict first)) as Hfa.
  { unfold first_active, cards. simpl. rewrite decide_True; [done|].
    unfold dict_get, first. by simplify_map_eq. }
  rewrite Hfa in Hcases.
  assert (answers_of (VDict first) = []) as Hans.
  { unfold answers_of, first, new_flashcard_state. by simplify_map_eq. }
  by rewrite Hans in Hcases.
Qed.

Lemma evaluate_after_populate_flashcards_witness :
  ∃ after,
    execute_step repository1 state1
      (step_value ("Start", "E1", "populate_flashcards", [("topic_id", VInt 2)]))
    = Ok after
    ∧ evaluate lenient after = (Raise no_user_answer, []).
Proof.
  apply evaluate_after_populate_flashcards. discriminate.
Defined.

End Pipeline.

(* ===================================================================== *)
(** * The planner node: [generate_plan] *)
(* ===================================================================== *)

Module Planner.
Import StateUtils QuizAgent PyFacts Terms Samples.

(** X9.  A converted message is in the new format: converting it again changes
    nothing.  A dict in the old format (with a [message] key) that has no
    [role] cannot be converted: [KeyError]. *)
Theorem convert_message_idempotent (msg : value) :
  match convert_message msg with
  | Ok converted => convert_message converted = Ok converted
  | Raise e =>
      e = KeyError (VStr "role")
      ∧ ∃ d, msg = VDict d ∧ is_Some (d !! "message") ∧ d !! "role" = None
  end.
Proof.
  unfold convert_message, dict_item.
  destruct msg as [| | | | | | |d]; try done.
  destruct (d !! "message") as [message|] eqn:Hm.
  - destruct (d !! "role") as [role|] eqn:Hr; simpl.
    + by simplify_map_eq.
    + split; [done|]. exists d. by rewrite Hm.
  - simpl. by rewrite Hm.
Qed.

Section planner.
Variable json_loads : string → res value.
Variable planner_chain_invoke : gmap string value → res string.
Variable get_flashcards_by_topic_id : value → list flashcard_row.

Lemma generate_plan_returns (state : gmap string value)
    (msgs converted : list value) (text : string) :
  iter (dict_get state "messages" (VList [])) = Ok msgs →
  convert_messages msgs = Ok converted →
  planner_chain_invoke (planner_input state converted) = Ok text →
  generate_plan json_loads planner_chain_invoke state
  = Ok (<["current_plan" := plan_value (parse_llm_plan_response json_loads text)]>
          (<["previous_plan" := dict_get state "current_plan" empty_plan]> state)).
Proof.
  intros Hi Hc Hp. unfold generate_plan. by rewrite Hi, !bind_Ok, Hc, !bind_Ok, Hp.
Qed.

End planner.

(** X10.  From the planner to the executor.  When the messages of the state
    convert and the planner answers with a text, whatever the text:
    [generate_plan] returns a state that differs from the given one in
    [current_plan] and [previous_plan] only, [previous_plan] being the plan
    that was current; and [execute_plan] on that state runs, in order,
    the steps that [parse_llm_plan_response] reads in the text, so a text
    with no well-formed step leaves the state as the planner node returned
    it. *)
Theorem generate_plan_then_execute_plan
    (json_loads : string → res value)
    (planner_chain_invoke : gmap string value → res string)
    (get_flashcards_by_topic_id : value → list flashcard_row)
    (state : gmap string value) (msgs converted : list value) (text : string) :
  iter (dict_get state "messages" (VList [])) = Ok msgs →
  convert_messages msgs = Ok converted →
  planner_chain_invoke (planner_input state converted) = Ok text →
  ∃ new_state,
    generate_plan json_loads planner_chain_invoke state = Ok new_state
    ∧ (∀ field, field ≠ "current_plan" → field ≠ "previous_plan" →
         new_state !! field = state !! field)
    ∧ new_state !! "previous_plan" = Some (dict_get state "current_plan" empty_plan)
    ∧ execute_plan get_flashcards_by_topic_id new_state
      = execute_steps get_flashcards_by_topic_id
          (step_value <$> parse_llm_plan_response json_loads text) new_state
    ∧ (parse_llm_plan_response json_loads text = [] →
       execute_plan get_flashcards_by_topic_id new_state = Ok new_state).
Proof.
  intros Hi Hc Hp. eexists. split; [by eapply generate_plan_returns|].
  split; [|split; [|split]].
  - intros field H1 H2. by rewrite !lookup_insert_ne.
  - by rewrite lookup_insert_ne, lookup_insert_eq.
  - apply (Execute.execute_plan_with_plan get_flashcards_by_topic_id).
  - intros Hnil.
    pose proof (Execute.execute_plan_with_plan get_flashcards_by_topic_id
                  (<["previous_plan" := dict_get state "current_plan" empty_plan]> state)
                  (parse_llm_plan_response json_loads text)) as Hrun.
    unfold with_plan in Hrun. rewrite Hrun. by rewrite Hnil.
Qed.

Lemma generate_plan_then_execute_plan_witness :
  ∃ new_state,
    generate_plan Json.loads (scripted response1) state1 = Ok new_state
    ∧ execute_plan repository1 new_state
      = execute_steps repository1
          (step_value <$> parse_llm_plan_response Json.loads response1) new_state.
Proof.
  destruct (generate_plan_then_execute_plan Json.loads (scripted response1)
              repository1 state1 [] [] response1 eq_refl eq_refl eq_refl)
    as (new_state & Hg & _ & _ & He & _).
  exists new_state. by split.
Defined.

End Planner.

(* ===================================================================== *)
(** * The flashcard merge of the reconciler *)
(* ===================================================================== *)

Module Upsert.
Import StateUtils PyFacts Terms Samples.
#[local] Open Scope nat_scope.

Lemma upsert_card_found (l : list value) (c d : gmap string value) (i : nat) :
  list_find (λ card, same_id c card = true) l = Some (i, VDict d) →
  upsert_card l c = <[i := VDict (dict_merge d c)]> l.
Proof. intros Hf. unfold upsert_card. by rewrite Hf. Qed.

Lemma upsert_card_missing (l : list value) (c : gmap string value) :
  list_find (λ card, same_id c card = true) l = None →
  upsert_card l c = l ++ [VDict c].
Proof. intros Hf. unfold upsert_card. by rewrite Hf. Qed.

(** The entry found is a dict. *)
Lemma upsert_card_cases (l : list value) (c : gmap string value) :
  (∃ i d, list_find (λ card, same_id c card = true) l = Some (i, VDict d))
  ∨ list_find (λ card, same_id c card = true) l = None.
Proof.
  destruct (list_find _ l) as [[i card]|] eqn:Hf; [|by right].
  left. apply list_find_Some in Hf as Hf'. destruct Hf' as (_ & Hs & _).
  destruct card; try done. eauto.
Qed.

(** A merged entry still carries the id it was found by. *)
Lemma same_id_merged (c d : gmap string value) :
  py_eq (dict_get c "id" VNone) (dict_get c "id" VNone) = true →
  same_id c (VDict d) = true →
  same_id c (VDict (dict_merge d c)) = true.
Proof.
  unfold same_id, dict_get. intros Hrefl Hd.
  rewrite dict_merge_lookup. by destruct (c !! "id").
Qed.

Lemma upsert_card_idempotent (l : list value) (c : gmap string value) :
  py_eq (dict_get c "id" VNone) (dict_get c "id" VNone) = true →
  upsert_card (upsert_card l c) c = upsert_card l c.
Proof.
  intros Hrefl. destruct (upsert_card_cases l c) as [(i & d & Hf)|Hf].
  - rewrite (upsert_card_found _ _ _ _ Hf).
    apply list_find_Some in Hf as (Hi & Hd & Hbefore).
    assert (list_find (λ card, same_id c card = true)
              (<[i := VDict (dict_merge d c)]> l)
            = Some (i, VDict (dict_merge d c))) as Hf'.
    { apply list_find_Some. split; [|split].
      - apply list_lookup_insert_eq. by eapply lookup_lt_Some.
      - by apply same_id_merged.
      - intros j y Hj Hlt. rewrite list_lookup_insert_ne in Hj by lia.
        by eapply Hbefore. }
    rewrite (upsert_card_found _ _ _ _ Hf'), list_insert_insert_eq.
    do 2 f_equal. unfold dict_merge.
    by rewrite (assoc_L (∪)), (idemp_L (∪)).
  - rewrite (upsert_card_missing _ _ Hf).
    apply list_find_None in Hf.
    assert (list_find (λ card, same_id c card = true) (l ++ [VDict c])
            = Some (length l, VDict c)) as Hf'.
    { apply list_find_Some. split; [|split].
      - by rewrite lookup_app_r, Nat.sub_diag.
      - done.
      - intros j y Hj Hlt. rewrite lookup_app_l in Hj by done.
        eapply Forall_lookup_1 in Hf; [|exact Hj]. done. }
    rewrite (upsert_card_found _ _ _ _ Hf').
    rewrite insert_app_r_alt, Nat.sub_diag by done. simpl.
    do 3 f_equal. unfold dict_merge. by rewrite (idemp_L (∪)).
Qed.

Lemma kept_in_refl (l : list value) : kept_in l l.
Proof.
  split; [done|]. intros i card Hi. exists card. split; [done|]. split; [done|].
  intros d ->. by exists d.
Qed.

Lemma kept_in_trans (l1 l2 l3 : list value) :
  kept_in l1 l2 → kept_in l2 l3 → kept_in l1 l3.
Proof.
  intros [Hl12 H12] [Hl23 H23]. split; [lia|]. intros i card Hi.
  destruct (H12 i card Hi) as (card2 & Hi2 & Hn2 & Hd2).
  destruct (H23 i card2 Hi2) as (card3 & Hi3 & Hn3 & Hd3).
  exists card3. split; [done|]. split.
  - intros Hc. pose proof (Hn2 Hc) as ->. by apply Hn3.
  - intros d ->. destruct (Hd2 d eq_refl) as (d2 & -> & Hs2).
    destruct (Hd3 d2 eq_refl) as (d3 & -> & Hs3).
    exists d3. split; [done|]. set_solver.
Qed.

Lemma upsert_card_kept (l : list value) (c : gmap string value) :
  kept_in l (upsert_card l c) ∧ length (upsert_card l c) ≤ S (length l).
Proof.
  destruct (upsert_card_cases l c) as [(i & d & Hf)|Hf].
  - rewrite (upsert_card_found _ _ _ _ Hf).
    apply list_find_Some in Hf as (Hi & _ & _).
    rewrite length_insert. split; [|lia]. split; [by rewrite length_insert|].
    intros j card Hj. destruct (decide (j = i)) as [->|Hne].
    + rewrite Hi in Hj. injection Hj as <-.
      eexists. split; [apply list_lookup_insert_eq; by eapply lookup_lt_Some|].
      split; [done|]. intros d' [= <-]. eexists. split; [done|].
      unfold dict_merge. rewrite dom_union_L. set_solver.
    + rewrite list_lookup_insert_ne by done.
      destruct (kept_in_refl l) as [_ Hk]. apply (Hk j card Hj).
  - rewrite (upsert_card_missing _ _ Hf), length_app. simpl.
    split; [|lia]. split; [rewrite length_app; lia|].
    intros j card Hj. rewrite lookup_app_l by (by eapply lookup_lt_Some).
    destruct (kept_in_refl l) as [_ Hk]. apply (Hk j card Hj).
Qed.

Lemma upsert_cards_kept (l news : list value) :
  kept_in l (upsert_cards l news)
  ∧ length (upsert_cards l news) ≤ length l + length news.
Proof.
  unfold upsert_cards. revert l.
  induction news as [|new news IH]; intros l; simpl.
  - split; [apply kept_in_refl|lia].
  - destruct new as [| | | | | | |c].
    8: { destruct (upsert_card_kept l c) as [Hk Hl].
         destruct (IH (upsert_card l c)) as [Hk' Hl'].
         split; [by eapply kept_in_trans|lia]. }
    all: destruct (IH l) as [Hk Hl]; split; [done|lia].
Qed.

(** X11.  The flashcard merge never drops or moves an entry.  Whatever the
    current queue and the incoming records: the result is at least as long
    as the queue and longer by at most the number of incoming records;
    every entry of the queue is at its index in the result; an entry that
    is not a mapping is unchanged, and an entry that is a mapping is a
    mapping with at least the same keys. *)
Theorem flashcard_merge_keeps_entries (current_flashcards new_cards : list value) :
  let updated_flashcards := upsert_cards current_flashcards new_cards in
  length current_flashcards ≤ length updated_flashcards
  ∧ length updated_flashcards ≤ length current_flashcards + length new_cards
  ∧ ∀ i card, current_flashcards !! i = Some card →
      ∃ card', updated_flashcards !! i = Some card'
        ∧ (isinstance_dict card = false → card' = card)
        ∧ (∀ d, card = VDict d → ∃ d', card' = VDict d' ∧ dom d ⊆ dom d').
Proof.
  intros updated. destruct (upsert_cards_kept current_flashcards new_cards)
    as [[Hlen Hk] Hmax].
  by repeat split.
Qed.

(** X12.  The flashcard merge is idempotent on a record whose id is equal to
    itself (every id but a NaN, or one that contains a NaN): merging the
    record into the result of merging it gives that result again, and
    offering the record twice in one update gives what offering it once
    gives. *)
Theorem flashcard_merge_idempotent (state : gmap string value)
    (current_flashcards : list value) (record : gmap string value) :
  py_eq (dict_get record "id" VNone) (dict_get record "id" VNone) = true →
  upsert_cards (upsert_cards current_flashcards [VDict record]) [VDict record]
    = upsert_cards current_flashcards [VDict record]
  ∧ bulk_set_state state
      [("flashcard_states", VList [VDict record; VDict record])]
    = bulk_set_state state [("flashcard_states", VList [VDict record])].
Proof.
  intros Hrefl. split.
  - simpl. by apply upsert_card_idempotent.
  - unfold bulk_set_state. simpl. unfold upsert_cards. simpl.
    by rewrite upsert_card_idempotent.
Qed.

Lemma flashcard_merge_idempotent_witness :
  bulk_set_state state3
    [("flashcard_states",
      VList [VDict {[ "id" := VInt 2; "attempts" := VInt 1 ]};
             VDict {[ "id" := VInt 2; "attempts" := VInt 1 ]}])]
  = bulk_set_state state3
      [("flashcard_states", VList [VDict {[ "id" := VInt 2; "attempts" := VInt 1 ]}])].
Proof.
  refine (proj2 (flashcard_merge_idempotent state3 []
                   {[ "id" := VInt 2; "attempts" := VInt 1 ]} _)).
  vm_compute. reflexivity.
Defined.

(** Records with the same id find the same entry. *)
Lemma same_id_eq (c1 c2 : gmap string value) (card : value) :
  dict_get c1 "id" VNone = dict_get c2 "id" VNone →
  same_id c2 card = same_id c1 card.
Proof. intros Hid. destruct card; try done. simpl. by rewrite Hid. Qed.

Lemma dict_merge_id (c1 c2 : gmap string value) :
  dict_get c1 "id" VNone = dict_get c2 "id" VNone →
  dict_get (dict_merge c1 c2) "id" VNone = dict_get c1 "id" VNone.
Proof.
  unfold dict_get. rewrite dict_merge_lookup. intros Hid.
  by destruct (c2 !! "id").
Qed.

Lemma list_find_same_id (c1 c2 : gmap string value) (l : list value) :
  dict_get c1 "id" VNone = dict_get c2 "id" VNone →
  list_find (λ card, same_id c2 card = true) l
  = list_find (λ card, same_id c1 card = true) l.
Proof.
  intros Hid. apply list_find_ext. intros card. by rewrite (same_id_eq c1 c2).
Qed.

Lemma upsert_card_same_id (l : list value) (c1 c2 : gmap string value) :
  dict_get c1 "id" VNone = dict_get c2 "id" VNone →
  py_eq (dict_get c1 "id" VNone) (dict_get c1 "id" VNone) = true →
  upsert_card (upsert_card l c1) c2 = upsert_card l (dict_merge c1 c2).
Proof.
  intros Hid Hrefl.
  assert (∀ l', list_find (λ card, same_id (dict_merge c1 c2) card = true) l'
                = list_find (λ card, same_id c1 card = true) l') as Hm.
  { intros l'. apply list_find_same_id. symmetry. by apply dict_merge_id. }
  destruct (upsert_card_cases l c1) as [(i & d & Hf)|Hf].
  - rewrite (upsert_card_found _ _ _ _ Hf).
    rewrite (upsert_card_found l (dict_merge c1 c2) d i) by (by rewrite Hm).
    apply list_find_Some in Hf as (Hi & Hd & Hbefore).
    assert (list_find (λ card, same_id c2 card = true)
              (<[i := VDict (dict_merge d c1)]> l)
            = Some (i, VDict (dict_merge d c1))) as Hf'.
    { rewrite (list_find_same_id c1 c2) by done.
      apply list_find_Some. split; [|split].
      - apply list_lookup_insert_eq. by eapply lookup_lt_Some.
      - by apply same_id_merged.
      - intros j y Hj Hlt. rewrite list_lookup_insert_ne in Hj by lia.
        by eapply Hbefore. }
    rewrite (upsert_card_found _ _ _ _ Hf'), list_insert_insert_eq.
    do 2 f_equal. unfold dict_merge. by rewrite (assoc_L (∪)).
  - rewrite (upsert_card_missing _ _ Hf).
    rewrite (upsert_card_missing l (dict_merge c1 c2)) by (by rewrite Hm).
    apply list_find_None in Hf.
    assert (list_find (λ card, same_id c2 card = true) (l ++ [VDict c1])
            = Some (length l, VDict c1)) as Hf'.
    { rewrite (list_find_same_id c1 c2) by done.
      apply list_find_Some. split; [|split].
      - by rewrite lookup_app_r, Nat.sub_diag.
      - done.
      - intros j y Hj Hlt. rewrite lookup_app_l in Hj by done.
        eapply Forall_lookup_1 in Hf; [|exact Hj]. done. }
    rewrite (upsert_card_found _ _ _ _ Hf').
    by rewrite insert_app_r_alt, Nat.sub_diag by done.
Qed.

(** X13.  Records of one update that carry the same id end in one card.  When
    two incoming records have the same id, and that id is equal to itself,
    offering one after the other gives what offering their merge gives (the
    later record wins where both have a field); the id that both lack
    counts as the same id, so records without an id all end in one card. *)
Theorem flashcard_merge_coalesces (state : gmap string value)
    (current_flashcards : list value) (first second : gmap string value) :
  dict_get first "id" VNone = dict_get second "id" VNone →
  py_eq (dict_get first "id" VNone) (dict_get first "id" VNone) = true →
  upsert_cards current_flashcards [VDict first; VDict second]
    = upsert_cards current_flashcards [VDict (dict_merge first second)]
  ∧ bulk_set_state state
      [("flashcard_states", VList [VDict first; VDict second])]
    = bulk_set_state state
        [("flashcard_states", VList [VDict (dict_merge first second)])].
Proof.
  intros Hid Hrefl. split.
  - simpl. by apply upsert_card_same_id.
  - unfold bulk_set_state. simpl. unfold upsert_cards. simpl.
    by rewrite upsert_card_same_id.
Qed.

Lemma flashcard_merge_coalesces_witness :
  upsert_cards [] [VDict {[ "question" := VStr "q" ]}; VDict {[ "status" := VStr "active" ]}]
  = upsert_cards []
      [VDict (dict_merge {[ "question" := VStr "q" ]} {[ "status" := VStr "active" ]})].
Proof.
  refine (proj1 (flashcard_merge_coalesces ∅ []
                   {[ "question" := VStr "q" ]} {[ "status" := VStr "active" ]} _ _));
    vm_compute; reflexivity.
Defined.

End Upsert.

(* ===================================================================== *)
(** * What the evaluator node records *)
(* ===================================================================== *)

Module Grading.
Import StateUtils QuizAgent PyFacts Terms Samples.

Section grading.
Variable evaluation_chain_invoke : evaluator_input → res EvaluationResult.

(** On a well-formed queue with an answered active card, [evaluate] is the
    evaluator on that card's input followed by [record_evaluation]. *)
Lemma evaluate_invokes (state : gmap string value) (cards : list value)
    (i : nat) (d : gmap string value) :
  state !! "flashcard_states" = Some (VList cards) →
  Forall flashcard_state cards →
  first_active cards = Some (i, VDict d) →
  answers_of (VDict d) ≠ [] →
  evaluate evaluation_chain_invoke state
  = (evaluation_result ← evaluation_chain_invoke (evaluator_input_of (VDict d));
     record_evaluation state (VList cards) i d evaluation_result,
     [evaluator_input_of (VDict d)]).
Proof.
  intros Hfs Hc Hfa Hans. unfold evaluate, dict_item. rewrite Hfs. simpl.
  rewrite (Evaluate.find_active_first_active _ _ Hc), Hfa. simpl.
  apply list_find_Some in Hfa as (Hi & _ & _).
  rewrite Hi. simpl.
  pose proof (proj1 (Forall_lookup _ _) Hc i _ Hi)
    as (d' & status & q & mc & answers & [= <-] & Hs & Ha & Hq & Hm).
  unfold getitem_str, dict_item. simpl.
  simpl in Hans. rewrite Ha in Hans |- *. rewrite Hq, Hm. simpl.
  destruct answers as [|answer answers]; [done|].
  rewrite bool_decide_false by done. simpl negb. cbv iota.
  destruct (last (answer :: answers)) as [sa|] eqn:Hl;
    [|by apply last_None in Hl].
  unfold dict_get. by rewrite Hq, Hm.
Qed.

End grading.

(** [d[k] = d.get(k, 0) + 1] on an integer counter. *)
Lemma bump_int (score : gmap string value) (k : string) (n : Z) :
  dict_get score k (VInt 0) = VInt n → bump score k = Ok (<[k := VInt (n + 1)]> score).
Proof. unfold bump. by intros ->. Qed.

(** Counting a verdict in a score whose three counters are integers. *)
Lemma record_evaluation_counts (state : gmap string value) (cards : list value)
    (i : nat) (d score : gmap string value) (er : EvaluationResult)
    (total right wrong : Z) :
  score_of state = Some score →
  dict_get score "total_attempts" (VInt 0) = VInt total →
  dict_get score "correct" (VInt 0) = VInt right →
  dict_get score "incorrect" (VInt 0) = VInt wrong →
  ∃ score',
    record_evaluation state (VList cards) i d er
    = Ok (<["score" := VDict score']>
            (<["flashcard_states" :=
                 VList (<[i := VDict (<["evaluation" := evaluation_of er]> d)]> cards)]>
               state))
    ∧ dict_get score' "total_attempts" (VInt 0) = VInt (total + 1)
    ∧ dict_get score' "correct" (VInt 0)
      = VInt (right + counts_as (result er) "correct")
    ∧ dict_get score' "incorrect" (VInt 0)
      = VInt (wrong + counts_as (result er) "incorrect")
    ∧ ∀ k, k ≠ "total_attempts" → k ≠ "correct" → k ≠ "incorrect" →
           score' !! k = score !! k.
Proof.
  intros Hsc Ht Hr Hw. unfold record_evaluation. rewrite bind_Ok.
  unfold score_of in Hsc.
  set (queued := <["flashcard_states" := _]> state).
  assert (queued !! "score" = state !! "score") as Hq
    by (subst queued; by rewrite lookup_insert_ne).
  set (zeros := ({[ "correct" := VInt 0; "incorrect" := VInt 0;
                    "total_attempts" := VInt 0 ]} : gmap string value)) in *.
  assert (∃ st, (match queued !! "score" with
                 | Some _ => queued
                 | None => <["score" := VDict zeros]> queued
                 end) = st
                ∧ dict_get st "score" VNone = VDict score
                ∧ <["score" := VDict score]> st = <["score" := VDict score]> queued)
    as (st & -> & Hst & Hins).
  { eexists. split; [done|]. rewrite Hq.
    destruct (state !! "score") as [[| | | | | | |sc]|] eqn:Hs; try done.
    - injection Hsc as ->. split; [|done].
      unfold dict_get. by rewrite Hq.
    - injection Hsc as <-. split.
      + unfold dict_get. by rewrite lookup_insert_eq.
      + by rewrite insert_insert_eq. }
  rewrite Hst. rewrite bind_Ok.
  rewrite (bump_int _ _ _ Ht), bind_Ok.
  assert (∀ sc' : gmap string value,
            <["score" := VDict sc']> st = <["score" := VDict sc']> queued) as Hany.
  { intros sc'. rewrite <-(insert_insert_eq st "score" (VDict sc') (VDict score)).
    by rewrite Hins, insert_insert_eq. }
  unfold dict_get in Hr, Hw.
  destruct (result er) eqn:Hres; simpl counts_as.
  - rewrite (bump_int _ _ right), bind_Ok, Hany
      by (unfold dict_get; by rewrite lookup_insert_ne).
    eexists. split; [done|]. unfold dict_get. repeat split.
    + by rewrite lookup_insert_ne, lookup_insert_eq.
    + by rewrite lookup_insert_eq.
    + rewrite !lookup_insert_ne by done. rewrite Hw. f_equal. lia.
    + intros k ???. by rewrite !lookup_insert_ne.
  - rewrite (bump_int _ _ wrong), bind_Ok, Hany
      by (unfold dict_get; by rewrite lookup_insert_ne).
    eexists. split; [done|]. unfold dict_get. repeat split.
    + by rewrite lookup_insert_ne, lookup_insert_eq.
    + rewrite !lookup_insert_ne by done. rewrite Hr. f_equal. lia.
    + by rewrite lookup_insert_eq.
    + intros k ???. by rewrite !lookup_insert_ne.
  - rewrite bind_Ok, Hany.
    eexists. split; [done|]. unfold dict_get. repeat split.
    + by rewrite lookup_insert_eq.
    + rewrite !lookup_insert_ne by done. rewrite Hr. f_equal. lia.
    + rewrite !lookup_insert_ne by done. rewrite Hw. f_equal. lia.
    + intros k ???. by rewrite !lookup_insert_ne.
Qed.

(** Storing a verdict on the active card leaves the queue well formed and
    the card first among the active ones, with the input it had. *)
Lemma evaluated_card_stays (cards : list value) (i : nat)
    (d : gmap string value) (evaluation : value) :
  Forall flashcard_state cards →
  first_active cards = Some (i, VDict d) →
  let card' := VDict (<["evaluation" := evaluation]> d) in
  Forall flashcard_state (<[i := card']> cards)
  ∧ first_active (<[i := card']> cards) = Some (i, card')
  ∧ answers_of card' = answers_of (VDict d)
  ∧ evaluator_input_of card' = evaluator_input_of (VDict d).
Proof.
  intros Hc Hfa card'.
  apply list_find_Some in Hfa as (Hi & Hact & Hbefore).
  pose proof (proj1 (Forall_lookup _ _) Hc i _ Hi)
    as (d' & status & q & mc & answers & [= <-] & Hs & Ha & Hq & Hm).
  assert (answers_of card' = answers_of (VDict d)) as Hans.
  { subst card'. simpl. by rewrite lookup_insert_ne. }
  split; [|split; [|split]]; [| |done|].
  - apply Forall_insert; [done|].
    exists (<["evaluation" := evaluation]> d), status, q, mc, answers.
    by rewrite !lookup_insert_ne.
  - apply list_find_Some. split; [|split].
    + apply list_lookup_insert_eq. by eapply lookup_lt_Some.
    + subst card'. simpl in *. unfold dict_get in *.
      by rewrite lookup_insert_ne.
    + intros j y Hj Hlt. rewrite list_lookup_insert_ne in Hj by lia.
      by eapply Hbefore.
  - unfold evaluator_input_of. rewrite Hans. subst card'.
    unfold dict_get. by rewrite !lookup_insert_ne.
Qed.

(** X14.  What a successful evaluation leaves behind.  On a state whose queue
    is well formed, whose first active card is answered, and whose score
    (when there is one) is a mapping with integer counters: when the
    evaluator answers, [evaluate] returns a state in which the card at the
    active index is the card with the verdict under [evaluation] and the
    rest of the queue is as it was; [total_attempts] is one more; [correct]
    is one more for a correct verdict, [incorrect] one more for an
    incorrect one, and a partial verdict changes neither; the other
    counters and the other fields of the state are unchanged. *)
Theorem evaluate_records_the_verdict
    (evaluation_chain_invoke : evaluator_input → res EvaluationResult)
    (state : gmap string value) (cards : list value) (i : nat)
    (d score : gmap string value) (er : EvaluationResult)
    (total right wrong : Z) :
  state !! "flashcard_states" = Some (VList cards) →
  Forall flashcard_state cards →
  first_active cards = Some (i, VDict d) →
  answers_of (VDict d) ≠ [] →
  score_of state = Some score →
  dict_get score "total_attempts" (VInt 0) = VInt total →
  dict_get score "correct" (VInt 0) = VInt right →
  dict_get score "incorrect" (VInt 0) = VInt wrong →
  evaluation_chain_invoke (evaluator_input_of (VDict d)) = Ok er →
  ∃ state' score',
    (evaluate evaluation_chain_invoke state).1 = Ok state'
    ∧ state' !! "flashcard_states"
      = Some (VList (<[i := VDict (<["evaluation" := evaluation_of er]> d)]> cards))
    ∧ state' !! "score" = Some (VDict score')
    ∧ dict_get score' "total_attempts" (VInt 0) = VInt (total + 1)
    ∧ dict_get score' "correct" (VInt 0)
      = VInt (right + counts_as (result er) "correct")
    ∧ dict_get score' "incorrect" (VInt 0)
      = VInt (wrong + counts_as (result er) "incorrect")
    ∧ (∀ k, k ≠ "total_attempts" → k ≠ "correct" → k ≠ "incorrect" →
            score' !! k = score !! k)
    ∧ (∀ k, k ≠ "flashcard_states" → k ≠ "score" → state' !! k = state !! k).
Proof.
  intros Hfs Hc Hfa Hans Hsc Ht Hr Hw Her.
  rewrite (evaluate_invokes _ _ _ _ _ Hfs Hc Hfa Hans). cbn [fst snd].
  rewrite Her, bind_Ok.
  destruct (record_evaluation_counts state cards i d score er total right wrong
              Hsc Ht Hr Hw) as (score' & -> & Ht' & Hr' & Hw' & Hk).
  eexists _, score'. split; [done|].
  split; [by rewrite lookup_insert_ne, lookup_insert_eq|].
  split; [by rewrite lookup_insert_eq|].
  do 4 (split; [done|]).
  intros k ??. by rewrite !lookup_insert_ne.
Qed.

Lemma evaluate_records_the_verdict_witness :
  ∃ state' score',
    (evaluate lenient state6).1 = Ok state'
    ∧ state' !! "flashcard_states"
      = Some (VList (<[1%nat := VDict (<["evaluation" :=
                                    evaluation_of {| result := correct; score := 1%float;
                                                     feedback := "Well done" |}]>
            {[ "id" := VInt 2; "status" := VStr "active";
               "question" := VStr "What is decomposition?";
               "marking_criteria" := VStr "Key points for full marks";
               "user_answers" := VList [VStr "No idea"; VStr "Splitting a problem"] ]})]>
          [VDict {[ "id" := VInt 1; "status" := VStr "done";
                    "question" := VStr "What is abstraction?";
                    "marking_criteria" := VStr "Key points for full marks";
                    "user_answers" := VList [VStr "Hiding detail"] ]};
           VDict {[ "id" := VInt 2; "status" := VStr "active";
                    "question" := VStr "What is decomposition?";
                    "marking_criteria" := VStr "Key points for full marks";
                    "user_answers" := VList [VStr "No idea"; VStr "Splitting a problem"] ]}]))
    ∧ state' !! "score" = Some (VDict score')
    ∧ dict_get score' "total_attempts" (VInt 0) = VInt (0 + 1)
    ∧ dict_get score' "correct" (VInt 0) = VInt (0 + counts_as correct "correct")
    ∧ dict_get score' "incorrect" (VInt 0) = VInt (0 + counts_as correct "incorrect")
    ∧ (∀ k, k ≠ "total_attempts" → k ≠ "correct" → k ≠ "incorrect" →
            score' !! k
            = ({[ "correct" := VInt 0; "incorrect" := VInt 0;
                  "total_attempts" := VInt 0 ]} : gmap string value) !! k)
    ∧ (∀ k, k ≠ "flashcard_states" → k ≠ "score" → state' !! k = state6 !! k).
Proof.
  refine (evaluate_records_the_verdict lenient state6 _ 1%nat _ _ _ 0 0 0
            eq_refl _ _ _ eq_refl eq_refl eq_refl eq_refl eq_refl).
  - repeat constructor; do 5 eexists; repeat split; reflexivity.
  - vm_compute. reflexivity.
  - vm_compute. discriminate.
Defined.

(** X15.  [evaluate] does not advance the queue.  After a successful
    evaluation the evaluated card is still the first active one and still
    has its answers, so evaluating the returned state asks the evaluator
    about the same question and the same answer again, and, when it
    answers, counts the attempt a second time. *)
Theorem evaluate_twice_counts_twice
    (evaluation_chain_invoke : evaluator_input → res EvaluationResult)
    (state : gmap string value) (cards : list value) (i : nat)
    (d score : gmap string value) (er : EvaluationResult)
    (total right wrong : Z) :
  state !! "flashcard_states" = Some (VList cards) →
  Forall flashcard_state cards →
  first_active cards = Some (i, VDict d) →
  answers_of (VDict d) ≠ [] →
  score_of state = Some score →
  dict_get score "total_attempts" (VInt 0) = VInt total →
  dict_get score "correct" (VInt 0) = VInt right →
  dict_get score "incorrect" (VInt 0) = VInt wrong →
  evaluation_chain_invoke (evaluator_input_of (VDict d)) = Ok er →
  ∃ state' state'' score'',
    (evaluate evaluation_chain_invoke state).1 = Ok state'
    ∧ (evaluate evaluation_chain_invoke state').2
      = (evaluate evaluation_chain_invoke state).2
    ∧ (evaluate evaluation_chain_invoke state').1 = Ok state''
    ∧ state'' !! "flashcard_states" = state' !! "flashcard_states"
    ∧ state'' !! "score" = Some (VDict score'')
    ∧ dict_get score'' "total_attempts" (VInt 0) = VInt (total + 2).
Proof.
  intros Hfs Hc Hfa Hans Hsc Ht Hr Hw Her.
  rewrite (evaluate_invokes _ _ _ _ _ Hfs Hc Hfa Hans). cbn [fst snd].
  rewrite Her, bind_Ok.
  destruct (record_evaluation_counts state cards i d score er total right wrong
              Hsc Ht Hr Hw) as (score' & -> & Ht' & Hr' & Hw' & Hk).
  destruct (evaluated_card_stays cards i d (evaluation_of er) Hc Hfa)
    as (Hc' & Hfa' & Hans' & Hin').
  set (state' := <["score" := VDict score']> _).
  assert (state' !! "flashcard_states" = Some (VList
            (<[i := VDict (<["evaluation" := evaluation_of er]> d)]> cards))) as Hfs'
    by (subst state'; by rewrite lookup_insert_ne, lookup_insert_eq).
  assert (score_of state' = Some score') as Hsc'
    by (subst state'; unfold score_of; by rewrite lookup_insert_eq).
  rewrite <-Hans' in Hans.
  pose proof (evaluate_invokes evaluation_chain_invoke _ _ _ _ Hfs' Hc' Hfa' Hans)
    as Hagain.
  rewrite Hin', Her, bind_Ok in Hagain.
  destruct (record_evaluation_counts state'
              (<[i := VDict (<["evaluation" := evaluation_of er]> d)]> cards) i
              (<["evaluation" := evaluation_of er]> d) score' er (total + 1)
              (right + counts_as (result er) "correct")
              (wrong + counts_as (result er) "incorrect")
              Hsc' Ht' Hr' Hw') as (score'' & Hrec & Ht'' & _).
  rewrite Hrec in Hagain.
  eexists state', _, score''. rewrite Hagain. cbn [fst snd].
  split; [done|]. split; [done|]. split; [done|]. split.
  - rewrite lookup_insert_ne, lookup_insert_eq, Hfs' by done.
    by rewrite insert_insert_eq, list_insert_insert_eq.
  - split; [by rewrite lookup_insert_eq|]. rewrite Ht''. f_equal. lia.
Qed.

Lemma evaluate_twice_counts_twice_witness :
  ∃ state' state'' score'',
    (evaluate lenient state6).1 = Ok state'
    ∧ (evaluate lenient state').2 = (evaluate lenient state6).2
    ∧ (evaluate lenient state').1 = Ok state''
    ∧ state'' !! "flashcard_states" = state' !! "flashcard_states"
    ∧ state'' !! "score" = Some (VDict score'')
    ∧ dict_get score'' "total_attempts" (VInt 0) = VInt (0 + 2).
Proof.
  refine (evaluate_twice_counts_twice lenient state6 _ 1%nat _ _ _ 0 0 0
            eq_refl _ _ _ eq_refl eq_refl eq_refl eq_refl eq_refl).
  - repeat constructor; do 5 eexists; repeat split; reflexivity.
  - vm_compute. reflexivity.
  - vm_compute. discriminate.
Defined.

End Grading.

(* ===================================================================== *)
(** * Well-formed steps and their tool inputs *)
(* ===================================================================== *)

Module Steps.
Import StateUtils PyFacts TextFacts Terms Samples.

(** ** Slices of a concatenation *)

Lemma append_nil (s : string) : EmptyString +:+ s = s.
Proof. done. Qed.

Lemma append_cons (a : ascii) (p s : string) : String a p +:+ s = String a (p +:+ s).
Proof. done. Qed.

Lemma length_append (p s : string) :
  String.length (p +:+ s) = (String.length p + String.length s)%nat.
Proof.
  induction p as [|a p IH]; [done|]. rewrite append_cons. simpl. by rewrite IH.
Qed.

Lemma append_assoc (p q s : string) : (p +:+ q) +:+ s = p +:+ (q +:+ s).
Proof.
  induction p as [|a p IH]; [done|]. rewrite !append_cons. by rewrite IH.
Qed.

Lemma substring_skip (p s : string) (n m : nat) :
  String.substring (String.length p + n) m (p +:+ s) = String.substring n m s.
Proof. induction p as [|a p IH]; [done|]. rewrite append_cons. simpl. apply IH. Qed.

Lemma substring_prefix (p s : string) :
  String.substring 0 (String.length p) (p +:+ s) = p.
Proof.
  induction p as [|a p IH]; [rewrite append_nil; by destruct s|].
  rewrite append_cons. simpl. by rewrite IH.
Qed.

Lemma substring_all (s : string) : String.substring 0 (String.length s) s = s.
Proof. induction s as [|a s IH]; simpl; [done|]. by rewrite IH. Qed.

Lemma drop_append (p s : string) :
  Text.drop (Z.of_nat (String.length p)) (p +:+ s) = s.
Proof.
  unfold Text.drop. rewrite Nat2Z.id, length_append.
  replace (String.length p + String.length s - String.length p)%nat
    with (String.length s) by lia.
  rewrite <-(Nat.add_0_r (String.length p)) at 1.
  by rewrite substring_skip, substring_all.
Qed.

Lemma slice_prefix (p s : string) :
  Text.slice 0 (Z.of_nat (String.length p)) (p +:+ s) = p.
Proof.
  unfold Text.slice. rewrite Nat2Z.id. simpl Z.to_nat. rewrite Nat.sub_0_r.
  apply substring_prefix.
Qed.

Lemma slice_middle (p body s : string) :
  Text.slice (Z.of_nat (String.length p))
    (Z.of_nat (String.length p) + Z.of_nat (String.length body))
    (p +:+ body +:+ s) = body.
Proof.
  unfold Text.slice. rewrite Nat2Z.id.
  replace (Z.to_nat (Z.of_nat (String.length p) + Z.of_nat (String.length body))
           - String.length p)%nat with (String.length body) by lia.
  rewrite <-(Nat.add_0_r (String.length p)) at 1.
  by rewrite substring_skip, substring_prefix.
Qed.

(** [s.find(c)] is the length of what precedes the first [c]. *)
Lemma find_from_append (c : ascii) (p s : string) (i : Z) :
  Text.contains (String c EmptyString) p = false →
  Text.find_from c (p +:+ String c s) i = i + Z.of_nat (String.length p).
Proof.
  revert i. induction p as [|a p IH]; intros i.
  - intros _. rewrite append_nil. simpl. rewrite bool_decide_true by done. lia.
  - rewrite append_cons. simpl Text.find_from. simpl String.length.
    intros Hc. simpl in Hc. case_bool_decide as Hca.
    { subst. by destruct p. }
    rewrite bool_decide_false by done.
    rewrite IH; [lia|]. by destruct p.
Qed.

(** ** The bracket scan *)

(** The scan passes over a text that closes the [n] brackets open before
    it and its own. *)
Lemma scan_brackets_nested (s : string) :
  ∀ (n : nat) (rest : string) (i bracket_count : Z),
    nested s n = true → 0 < bracket_count →
    scan_brackets (s +:+ rest) i (bracket_count + Z.of_nat n)
    = scan_brackets rest (i + Z.of_nat (String.length s)) bracket_count.
Proof.
  induction s as [|char s IH]; intros n rest i k.
  - rewrite append_nil. simpl. intros ->%bool_decide_eq_true _. f_equal; lia.
  - rewrite append_cons. simpl. intros Hn Hk. case_bool_decide as Hopen.
    + replace (k + Z.of_nat n + 1) with (k + Z.of_nat (S n)) by lia.
      rewrite (IH _ _ _ _ Hn Hk). f_equal. lia.
    + case_bool_decide as Hclose.
      * destruct n as [|n']; [done|].
        match goal with
        | |- context [?x =? 0] =>
            destruct (Z.eqb_spec x 0) as [Hz|Hz]; [lia|];
            replace x with (k + Z.of_nat n') by lia
        end.
        rewrite (IH _ _ _ _ Hn Hk). f_equal. lia.
      * rewrite (IH _ _ _ _ Hn Hk). f_equal. lia.
Qed.

(** From an opening bracket the scan stops at the bracket that matches
    it, whatever follows. *)
Lemma scan_brackets_matching (body rest : string) (i : Z) :
  balanced body →
  scan_brackets ("[" +:+ body +:+ "]" +:+ rest) i 0
  = (i + 1 + Z.of_nat (String.length body), 0).
Proof.
  intros Hb. rewrite append_cons, append_nil. simpl.
  pose proof (scan_brackets_nested body 0 ("]" +:+ rest) (i + 1) 1 Hb) as Hscan.
  change (1 + Z.of_nat 0) with 1 in Hscan. change (0 + 1) with 1.
  rewrite Hscan by lia.
  by rewrite append_cons, append_nil.
Qed.

Section steps.
Variable json_loads : string → res value.

(** ** [parse_tool_input], item by item *)






(** ** A well-formed step *)

Lemma parse_step_try_well_formed (plans : list plan_tuple)
    (plan_description number remainder tool body rest : string) :
  Text.contains "=" number = false →
  Text.strip remainder = tool +:+ "[" +:+ body +:+ "]" +:+ rest →
  Text.contains "[" tool = false →
  balanced body →
  parse_step_try json_loads plans plan_description (number +:+ "=" +:+ remainder)
  = (updates ← parse_tool_input json_loads (Text.strip body);
     Ok (plans ++ [(plan_description, "E" +:+ Text.strip number, Text.strip tool,
                    updates)])).
Proof.
  intros Hnum Hrem Htool Hbody. unfold parse_step_try.
  change ("=" +:+ remainder) with (String "="%char remainder).
  rewrite (split1_app_char "="%char number remainder Hnum). cbv zeta.
  rewrite Hrem. unfold Text.find.
  change ("[" +:+ body +:+ "]" +:+ rest) with (String "["%char (body +:+ "]" +:+ rest)).
  rewrite (find_from_append "["%char tool _ 0 Htool). rewrite Z.add_0_l.
  destruct (Z.eqb_spec (Z.of_nat (String.length tool)) (-1)) as [Hz|Hz]; [lia|].
  rewrite drop_append, slice_prefix.
  change (String "["%char (body +:+ "]" +:+ rest)) with ("[" +:+ body +:+ "]" +:+ rest).
  rewrite (scan_brackets_matching body rest _ Hbody).
  destruct (Z.eqb_spec
              (Z.of_nat (String.length tool) + 1 + Z.of_nat (String.length body)) (-1))
    as [Hz'|Hz']; [lia|]. simpl orb. cbv iota.
  replace (tool +:+ "[" +:+ body +:+ "]" +:+ rest)
    with ((tool +:+ "[") +:+ body +:+ ("]" +:+ rest)) by (by rewrite append_assoc).
  replace (Z.of_nat (String.length tool) + 1)
    with (Z.of_nat (String.length (tool +:+ "["))) by (rewrite length_append; simpl; lia).
  by rewrite slice_middle.
Qed.

End steps.

(** X16.  The bracket scan finds the matching bracket.  In a step whose
    number has no [=], whose tool name has no bracket and whose tool input
    has matching brackets, the parser takes the text between the first
    opening bracket and the bracket that matches it, nested brackets
    included, and ignores what follows the closing bracket: the step
    parsed is the description, [E] and the trimmed number, the trimmed
    tool name and the updates of the trimmed input; when the input's
    parse raises, the step is dropped. *)
Theorem parse_step_well_formed (json_loads : string → res value)
    (plans : list plan_tuple)
    (plan_description number remainder tool body rest : string) :
  Text.contains "=" number = false →
  Text.strip remainder = tool +:+ "[" +:+ body +:+ "]" +:+ rest →
  Text.contains "[" tool = false →
  balanced body →
  parse_step json_loads plans plan_description (number +:+ "=" +:+ remainder)
  = match parse_tool_input json_loads (Text.strip body) with
    | Ok updates =>
        plans ++ [(plan_description, "E" +:+ Text.strip number, Text.strip tool,
                   updates)]
    | Raise _ => plans
    end.
Proof.
  intros Hnum Hrem Htool Hbody. unfold parse_step.
  rewrite (parse_step_try_well_formed json_loads plans plan_description number
             remainder tool body rest Hnum Hrem Htool Hbody).
  by destruct (parse_tool_input json_loads (Text.strip body)).
Qed.

Lemma parse_step_well_formed_witness :
  parse_step decode_one [] "Start" ("1 " +:+ "=" +:+ " bulk_set_state [a=[x]; b=1] and more ")
  = match parse_tool_input decode_one (Text.strip "a=[x]; b=1") with
    | Ok updates =>
        [] ++ [("Start", "E" +:+ Text.strip "1 ", Text.strip "bulk_set_state ", updates)]
    | Raise _ => []
    end.
Proof.
  apply (parse_step_well_formed decode_one [] "Start" "1 "
           " bulk_set_state [a=[x]; b=1] and more " "bulk_set_state " "a=[x]; b=1"
           " and more"); vm_compute; reflexivity.
Defined.


End Steps.
